(** * OpenFDA adverse-event dashboard: normalisation and aggregation layer

    Shallow embedding of the two Streamlit scripts of the repository,
    [app.py] and [app 001.py] (the second one is the later revision with a
    global date filter in the sidebar).  Raw API records are JSON values as
    [json.loads] produces them; a pandas DataFrame built from a list of
    records is a list of columns plus the list of record dictionaries,
    a missing cell reading as the float NaN. *)

From Stdlib Require Import List String Ascii ZArith Bool Lia Sorted Permutation.
From Stdlib Require Import PrimFloat SpecFloat FloatOps.
Import ListNotations.

Open Scope string_scope.
Set Warnings "-register-all".

(** ** JSON values *)

Inductive value : Type :=
| VNone
| VBool (b : bool)
| VInt (z : Z)
| VFloat (f : float)
| VStr (s : string)
| VList (xs : list value)
| VDict (d : list (string * value)).

(** [dict.get]: the first binding of a key (json.loads produces dictionaries
    without duplicate keys). *)
Fixpoint lookup (k : string) (d : list (string * value)) : option value :=
  match d with
  | [] => None
  | (k', v) :: r => if String.eqb k k' then Some v else lookup k r
  end.

(** NaN, the value pandas stores in a missing cell. *)
Definition nan_cell : value := VFloat PrimFloat.nan.

(** [pd.isna] on one object: [None] and float NaN. *)
Definition py_isna (v : value) : bool :=
  match v with
  | VNone => true
  | VFloat f => PrimFloat.is_nan f
  | _ => false
  end.

(** ** Python equality, the key equality of pandas' hash tables *)

(** Exact numeric value of a bool, int or float: [NFin m e] is [m * 2^e]. *)
Inductive num : Type :=
| NFin (m e : Z)
| NInf (neg : bool)
| NNaN.

Definition num_of (v : value) : option num :=
  match v with
  | VBool b => Some (NFin (if b then 1 else 0)%Z 0)
  | VInt z => Some (NFin z 0)
  | VFloat f =>
      Some (match Prim2SF f with
            | S754_zero _ => NFin 0 0
            | S754_infinity s => NInf s
            | S754_nan => NNaN
            | S754_finite s m e => NFin (if s then Z.neg m else Z.pos m) e
            end)
  | _ => None
  end.

Definition num_eqb (x y : num) : bool :=
  match x, y with
  | NFin m1 e1, NFin m2 e2 =>
      let e := Z.min e1 e2 in
      Z.eqb (m1 * 2 ^ (e1 - e)) (m2 * 2 ^ (e2 - e))
  | NInf a, NInf b => Bool.eqb a b
  | _, _ => false
  end.

(** [a == b] in Python: numbers compare by exact value across bool, int and
    float; strings by content; lists elementwise; dictionaries by their
    bindings. *)
Fixpoint py_eqb (a b : value) {struct a} : bool :=
  match a, b with
  | VNone, VNone => true
  | VStr s, VStr t => String.eqb s t
  | VList xs, VList ys =>
      (fix go (xs ys : list value) : bool :=
         match xs, ys with
         | [], [] => true
         | x :: xs', y :: ys' => py_eqb x y && go xs' ys'
         | _, _ => false
         end) xs ys
  | VDict d1, VDict d2 =>
      Nat.eqb (List.length d1) (List.length d2) &&
      (fix go (d : list (string * value)) : bool :=
         match d with
         | [] => true
         | (k, v) :: r =>
             match lookup k d2 with
             | Some w => py_eqb v w
             | None => false
             end && go r
         end) d1
  | _, _ =>
      match num_of a, num_of b with
      | Some x, Some y => num_eqb x y
      | _, _ => false
      end
  end.

(** ** [Series.value_counts()] and [.head(n)] *)

Section ValueCounts.
Context {A : Type} (eqb : A -> A -> bool) (isna : A -> bool).

(** Keys of the counting hash table, in order of first occurrence. *)
Fixpoint uniq_first (l : list A) : list A :=
  match l with
  | [] => []
  | x :: r => x :: filter (fun y => negb (eqb x y)) (uniq_first r)
  end.

Definition count_eq (x : A) (l : list A) : nat := List.length (filter (eqb x) l).

Definition tally (l : list A) : list (A * nat) :=
  map (fun x => (x, count_eq x l)) (uniq_first l).

(** Descending sort on the counts; an element goes before every element
    of equal count that follows it, so equal counts keep the hash table's
    first-occurrence order. *)
Fixpoint insert_desc (p : A * nat) (l : list (A * nat)) : list (A * nat) :=
  match l with
  | [] => [p]
  | q :: r => if Nat.leb (snd q) (snd p) then p :: q :: r else q :: insert_desc p r
  end.

Fixpoint sort_desc (l : list (A * nat)) : list (A * nat) :=
  match l with
  | [] => []
  | p :: r => insert_desc p (sort_desc r)
  end.

(** [value_counts()] with its defaults [dropna=True], [sort=True]. *)
Definition value_counts (l : list A) : list (A * nat) :=
  sort_desc (tally (filter (fun x => negb (isna x)) l)).

(** Position of the first element equal to [x]. *)
Fixpoint first_pos (x : A) (l : list A) : nat :=
  match l with
  | [] => 0
  | y :: r => if eqb y x then 0 else S (first_pos x r)
  end.
End ValueCounts.

(** Order of a frequency table: descending by count, then ascending by
    [key]. *)
Definition rank_before {A} (key : A -> nat) (p q : A * nat) : Prop :=
  (snd q < snd p \/ (snd q = snd p /\ key (fst p) < key (fst q)))%nat.

(** Relabel the keys of a table. *)
Definition map_key {A B} (g : A -> B) (p : A * nat) : B * nat := (g (fst p), snd p).

(** [pd.Series(values).value_counts().head(n)]. *)
Definition top_n_frequency (n : nat) (vals : list value) : list (value * nat) :=
  firstn n (value_counts py_eqb py_isna vals).

(** ** Python exceptions and the error monad of the scripts *)

Inductive exn : Type :=
| ValueError
| TypeError
| OverflowError
| KeyError (k : string).

Inductive result (A : Type) : Type :=
| Ok (a : A)
| Err (e : exn).
Arguments Ok {A} a.
Arguments Err {A} e.

Definition bind {A B} (m : result A) (k : A -> result B) : result B :=
  match m with
  | Ok a => k a
  | Err e => Err e
  end.

Notation "x <- m ;; k" := (bind m (fun x => k))
  (at level 61, m at next level, right associativity).

Fixpoint map_result {A B} (f : A -> result B) (l : list A) : result (list B) :=
  match l with
  | [] => Ok []
  | x :: r => y <- f x ;; ys <- map_result f r ;; Ok (y :: ys)
  end.

(** ** Numbers *)

(** [float(n)] for a Python int: round to nearest even, [OverflowError]
    when the rounded value does not fit a double. *)
Definition float_of_int (z : Z) : result float :=
  match binary_normalize prec emax z 0 false with
  | S754_infinity _ => Err OverflowError
  | sf => Ok (SF2Prim sf)
  end.

Definition float_of_nat (n : nat) : float :=
  SF2Prim (binary_normalize prec emax (Z.of_nat n) 0 false).

(** Decimal digits of a non-negative integer ([fuel] bounds the digits). *)
Fixpoint dec_digits (fuel : nat) (n : Z) (acc : string) : string :=
  match fuel with
  | O => acc
  | S f =>
      let acc' := String (ascii_of_nat (48 + Z.to_nat (n mod 10))) acc in
      if (n <? 10)%Z then acc' else dec_digits f (n / 10) acc'
  end.

(** [str(n)] for a Python int. *)
Definition int_to_str (z : Z) : string :=
  if (z <? 0)%Z
  then "-" ++ dec_digits (S (Z.to_nat (Z.log2 (- z)))) (- z) ""
  else dec_digits (S (Z.to_nat (Z.log2 z))) z "".

(** ** Calendar dates *)

Record date : Type := mkDate { year : Z; month : Z; day : Z }.

Definition date_leb (a b : date) : bool :=
  (year a <? year b)%Z ||
  ((year a =? year b)%Z &&
   ((month a <? month b)%Z || ((month a =? month b)%Z && (day a <=? day b)%Z))).

Definition date_min (a b : date) : date := if date_leb a b then a else b.
Definition date_max (a b : date) : date := if date_leb a b then b else a.

Definition is_leap (y : Z) : bool :=
  ((y mod 4 =? 0)%Z && negb (y mod 100 =? 0)%Z) || (y mod 400 =? 0)%Z.

Definition days_in_month (y m : Z) : Z :=
  if (m =? 2)%Z then (if is_leap y then 29 else 28)%Z
  else if existsb (Z.eqb m) [4; 6; 9; 11]%Z then 30%Z else 31%Z.

(** ** DataFrames built from the API records *)

Definition record := list (string * value).

Record frame : Type := mkFrame { cols : list string; rows : list record }.

Definition add_keys (acc : list string) (r : record) : list string :=
  fold_left (fun acc kv => if existsb (String.eqb (fst kv)) acc then acc else app acc [fst kv])
            r acc.

(** [pd.DataFrame(data)]: one column per key seen in any record. *)
Definition frame_of (data : list record) : frame :=
  mkFrame (fold_left add_keys data []) data.

(** [k in df.columns]. *)
Definition has_col (k : string) (f : frame) : bool := existsb (String.eqb k) (cols f).

(** One cell: the record's value, NaN when the record lacks the key. *)
Definition cell (k : string) (r : record) : value :=
  match lookup k r with
  | Some v => v
  | None => nan_cell
  end.

(** [df[k]]: [KeyError] when the frame has no such column. *)
Definition column (k : string) (f : frame) : result (list value) :=
  if has_col k f then Ok (map (cell k) (rows f)) else Err (KeyError k).

(** ** Field extractors (the lambdas and local functions of the scripts) *)

(** [x['patientsex'] if isinstance(x, dict) and 'patientsex' in x else None] *)
Definition get_sex (p : value) : value :=
  match p with
  | VDict d => match lookup "patientsex" d with Some s => s | None => VNone end
  | _ => VNone
  end.

Definition unspecified : string := "Não Informado".

Definition gender_codes : list (value * string) :=
  [(VStr "1", "Masculino"); (VStr "2", "Feminino");
   (VStr "M", "Masculino"); (VStr "F", "Feminino")].

(** [gender_raw.map({...}).fillna('Não Informado')]: hash lookup of the raw
    value among the dictionary's keys; a miss gives NaN, then the sentinel. *)
Definition gender_label (v : value) : string :=
  match find (fun kv => py_eqb (fst kv) v) gender_codes with
  | Some (_, lbl) => lbl
  | None => unspecified
  end.

(** [x['reportercountry'] if isinstance(x, dict) and 'reportercountry' in x
    else 'Desconhecido'] *)
Definition get_country (ps : value) : value :=
  match ps with
  | VDict d =>
      match lookup "reportercountry" d with
      | Some c => c
      | None => VStr "Desconhecido"
      end
  | _ => VStr "Desconhecido"
  end.

(** The loop of [get_medicinal_products] and [get_reactions]: every entry
    that is a dict holding [name] contributes [entry[name]]. *)
Definition names_in (name : string) (entries : list value) : list value :=
  flat_map (fun e =>
              match e with
              | VDict de => match lookup name de with Some v => [v] | None => [] end
              | _ => []
              end) entries.

Definition get_list_names (listkey name : string) (p : value) : list value :=
  match p with
  | VDict d =>
      match lookup listkey d with
      | Some (VList entries) => names_in name entries
      | _ => []
      end
  | _ => []
  end.

Definition get_medicinal_products (p : value) : list value :=
  get_list_names "drug" "medicinalproduct" p.

Definition get_reactions (p : value) : list value :=
  get_list_names "reaction" "reactionmeddrapt" p.

(** ** Monthly time series *)

(** Months counted from year 0: January of year [y] is [12 * y]. *)
Definition month_index (d : date) : Z := (year d * 12 + (month d - 1))%Z.

(** Label of a bucket with [freq='ME']: the last day of its month. *)
Definition month_end (k : Z) : date :=
  let y := (k / 12)%Z in
  let m := (k mod 12 + 1)%Z in
  mkDate y m (days_in_month y m).

Definition zrange (lo hi : Z) : list Z :=
  map (fun i => (lo + Z.of_nat i)%Z) (seq 0 (Z.to_nat (hi - lo + 1))).

Definition month_count (ds : list date) (k : Z) : nat :=
  List.length (filter (fun d => Z.eqb (month_index d) k) ds).

(** [groupby(pd.Grouper(key='receipt_date', freq='ME')).size()]: the
    month-end bins run from the first to the last month holding a date, and
    each bin holds the number of dates of its month. *)
Definition bucket_by_month (ds : list date) : list (date * nat) :=
  match ds with
  | [] => []
  | d :: r =>
      let ks := map month_index r in
      let lo := fold_left Z.min ks (month_index d) in
      let hi := fold_left Z.max ks (month_index d) in
      map (fun k => (month_end k, month_count ds k)) (zrange lo hi)
  end.

(** ** What the dashboard shows *)

Record panels : Type := mkPanels {
  total_events : nat;
  gender : option (list (string * nat));
  countries : list (value * nat);
  products : option (list (value * nat));
  reactions : option (list (value * nat));
  age_mean : option (option float);
  series : option (list (date * nat))
}.

Inductive dashboard : Type :=
| NoData
| EmptyPeriod
| Shown (p : panels).

Definition date_eqb (a b : date) : bool := date_leb a b && date_leb b a.

(** [st.slider(min_value=mn, max_value=mx, value=(mn, mx))]: the range the
    user picked, the default [(mn, mx)] when untouched; Streamlit refuses a
    slider whose bounds coincide, which the scripts catch. *)
Definition slider (mn mx : date) (sel : option (date * date)) : option (date * date) :=
  if date_eqb mn mx then None
  else Some (match sel with Some p => p | None => (mn, mx) end).

Definition min_max (ds : list date) : option (date * date) :=
  match ds with
  | [] => None
  | d :: r => Some (fold_left date_min r d, fold_left date_max r d)
  end.

(** [AGE_UNIT_MAP] *)
Definition AGE_UNIT_MAP : list (string * float) :=
  [("800", 10); ("801", 1); ("802", 1 / 12); ("803", 1 / 365); ("804", 1 / (365 * 24))]%float.

Definition age_multiplier (unit : string) : option float :=
  match find (fun kv => String.eqb (fst kv) unit) AGE_UNIT_MAP with
  | Some (_, m) => Some m
  | None => None
  end.

(** [str(u)] where it can be one of the table's keys: a str is itself, an
    int its decimal digits; [str] of None, bools, floats, lists and dicts
    always holds a character other than a digit, so it is never a key. *)
Definition unit_key (u : value) : option string :=
  match u with
  | VStr s => Some s
  | VInt z => Some (int_to_str z)
  | _ => None
  end.

Section Dashboard.
(** [float(s)] for a str: [None] where Python raises [ValueError]. *)
Variable float_of_str : string -> option float.
(** [pd.to_datetime(df['receiptdate'], errors='coerce')] on one cell:
    [None] for NaT. *)
Variable to_datetime : value -> option date.
(** The float64 sum behind [Series.mean()]. *)
Variable np_sum : list float -> float.

(** [float(v)] *)
Definition py_float (v : value) : result float :=
  match v with
  | VBool b => Ok (if b then 1 else 0)%float
  | VInt z => float_of_int z
  | VFloat f => Ok f
  | VStr s => match float_of_str s with Some f => Ok f | None => Err ValueError end
  | _ => Err TypeError
  end.

(** [get_normalized_age]: the [try] catches [ValueError] and [TypeError]
    only. *)
Definition get_normalized_age (p : value) : result (option float) :=
  match p with
  | VDict d =>
      match lookup "patientonsetage" d, lookup "patientonsetageunit" d with
      | Some a, Some u =>
          match py_float a with
          | Ok age =>
              match unit_key u with
              | Some s =>
                  match age_multiplier s with
                  | Some m => Ok (Some (age * m)%float)
                  | None => Ok None
                  end
              | None => Ok None
              end
          | Err ValueError | Err TypeError => Ok None
          | Err e => Err e
          end
      | _, _ => Ok None
      end
  | _ => Ok None
  end.

(** [df['normalized_age'].dropna()]: the None results and NaN ages go. *)
Definition valid_ages (ps : list value) : result (list float) :=
  ns <- map_result get_normalized_age ps ;;
  Ok (filter (fun x => negb (PrimFloat.is_nan x))
             (flat_map (fun o => match o with Some x => [x] | None => [] end) ns)).

(** [valid_ages.mean()] behind [if not valid_ages.empty]: [None] is the
    "no valid age" message. *)
Definition mean_report (ages : list float) : option float :=
  match ages with
  | [] => None
  | _ => Some (np_sum ages / float_of_nat (List.length ages))%float
  end.

Definition age_summary (ps : list value) : result (option float) :=
  ages <- valid_ages ps ;; Ok (mean_report ages).

Definition receipt_date (r : record) : option date := to_datetime (cell "receiptdate" r).

Definition is_dated (r : record) : bool :=
  match receipt_date r with Some _ => true | None => false end.

Definition row_dates (rs : list record) : list date :=
  flat_map (fun r => match receipt_date r with Some d => [d] | None => [] end) rs.

(** [df['receipt_date'] = pd.to_datetime(...)] *)
Definition with_receipt_date (f : frame) : frame :=
  mkFrame (app (cols f) ["receipt_date"]) (rows f).

(** [df.dropna(subset=['receipt_date'])] *)
Definition drop_undated (f : frame) : frame := mkFrame (cols f) (filter is_dated (rows f)).

Definition in_range (a b : date) (r : record) : bool :=
  match receipt_date r with
  | Some d => date_leb a d && date_leb d b
  | None => false
  end.

(** [df[(df['receipt_date'].dt.date >= a) & (df['receipt_date'].dt.date <= b)]] *)
Definition filter_by_range (f : frame) (a b : date) : frame :=
  mkFrame (cols f) (filter (in_range a b) (rows f)).

Definition patients (f : frame) : list value := map (cell "patient") (rows f).

(** Column 1: [gender_mapped.value_counts()]. *)
Definition gender_counts (f : frame) : option (list (string * nat)) :=
  if has_col "patient" f
  then Some (value_counts String.eqb (fun _ => false)
               (map (fun p => gender_label (get_sex p)) (patients f)))
  else None.

(** Column 2: [df['primarysource'].apply(...).value_counts().head(10)];
    the column is read without checking that it exists. *)
Definition country_counts (f : frame) : result (list (value * nat)) :=
  ps <- column "primarysource" f ;;
  Ok (top_n_frequency 10 (map get_country ps)).

(** Columns 3 and 4. *)
Definition product_counts (f : frame) : option (list (value * nat)) :=
  if has_col "patient" f
  then Some (top_n_frequency 10 (flat_map get_medicinal_products (patients f)))
  else None.

Definition reaction_counts (f : frame) : option (list (value * nat)) :=
  if has_col "patient" f
  then Some (top_n_frequency 10 (flat_map get_reactions (patients f)))
  else None.

(** Column 5. *)
Definition age_panel (f : frame) : result (option (option float)) :=
  if has_col "patient" f
  then (s <- age_summary (patients f) ;; Ok (Some s))
  else Ok None.

(** *** [app 001.py]: one global date filter in the sidebar *)

(** [filtered_df] *)
Definition working_frame_001 (df : frame) (sel : option (date * date)) : frame :=
  if has_col "receiptdate" df then
    let df1 := drop_undated (with_receipt_date df) in
    match min_max (row_dates (rows df1)) with
    | None => df1
    | Some (mn, mx) =>
        match slider mn mx sel with
        | Some (a, b) => filter_by_range df1 a b
        | None => df1
        end
    end
  else df.

Definition panels_001 (f : frame) : result panels :=
  let g := gender_counts f in
  cs <- country_counts f ;;
  let ps := product_counts f in
  let rs := reaction_counts f in
  am <- age_panel f ;;
  let ts := if has_col "receipt_date" f && negb (Nat.eqb (List.length (rows f)) 0)
            then Some (bucket_by_month (row_dates (rows f)))
            else None in
  Ok (mkPanels (List.length (rows f)) g cs ps rs am ts).

Definition dashboard_001 (data : list record) (sel : option (date * date)) : result dashboard :=
  match data with
  | [] => Ok NoData
  | _ =>
      let wf := working_frame_001 (frame_of data) sel in
      match rows wf with
      | [] => Ok EmptyPeriod
      | _ => p <- panels_001 wf ;; Ok (Shown p)
      end
  end.

(** *** [app.py]: the date filter lives in the temporal column only *)

Definition time_series_app (df : frame) (sel : option (date * date)) : option (list (date * nat)) :=
  if has_col "receiptdate" df then
    let df1 := drop_undated (with_receipt_date df) in
    match min_max (row_dates (rows df1)) with
    | None => None
    | Some (mn, mx) =>
        let '(a, b) := match slider mn mx sel with Some p => p | None => (mn, mx) end in
        let filtered := filter_by_range df1 a b in
        match rows filtered with
        | [] => None
        | _ => Some (bucket_by_month (row_dates (rows filtered)))
        end
    end
  else None.

Definition panels_app (df : frame) (sel : option (date * date)) : result panels :=
  let g := gender_counts df in
  cs <- country_counts df ;;
  let ps := product_counts df in
  let rs := reaction_counts df in
  am <- age_panel df ;;
  let ts := time_series_app df sel in
  Ok (mkPanels (List.length (rows df)) g cs ps rs am ts).

Definition dashboard_app (data : list record) (sel : option (date * date)) : result dashboard :=
  match data with
  | [] => Ok NoData
  | _ => p <- panels_app (frame_of data) sel ;; Ok (Shown p)
  end.
End Dashboard.

(** ** Concrete instances used at explicit inputs *)

Definition digit_of (c : ascii) : option Z :=
  let n := nat_of_ascii c in
  if (48 <=? n)%nat && (n <=? 57)%nat then Some (Z.of_nat (n - 48)) else None.

Fixpoint digits_value (s : string) (acc : Z) : option Z :=
  match s with
  | EmptyString => Some acc
  | String c r =>
      match digit_of c with
      | Some d => digits_value r (acc * 10 + d)%Z
      | None => None
      end
  end.

(** [pd.to_datetime] on the API's compact [YYYYMMDD] strings: a valid
    calendar date inside the range of pandas timestamps, NaT otherwise. *)
Definition parse_yyyymmdd (v : value) : option date :=
  match v with
  | VStr s =>
      if Nat.eqb (String.length s) 8 then
        match digits_value (substring 0 4 s) 0, digits_value (substring 4 2 s) 0,
              digits_value (substring 6 2 s) 0 with
        | Some y, Some m, Some d =>
            let dt := mkDate y m d in
            if (1 <=? m)%Z && (m <=? 12)%Z && (1 <=? d)%Z && (d <=? days_in_month y m)%Z
               && date_leb (mkDate 1677 9 22) dt && date_leb dt (mkDate 2262 4 11)
            then Some dt else None
        | _, _, _ => None
        end
      else None
  | _ => None
  end.

(** [float(s)] on strings of decimal digits only. *)
Definition float_of_digits (s : string) : option float :=
  match s with
  | EmptyString => None
  | _ => match digits_value s 0 with
         | Some z => match float_of_int z with Ok f => Some f | Err _ => None end
         | None => None
         end
  end.

(** Left-to-right float summation from [0.0]. *)
Definition sum_seq (xs : list float) : float := fold_left PrimFloat.add xs 0%float.

(** * Properties *)

(** ** Sorting and counting *)

Lemma SS_filter_impl {A} (R R' : A -> A -> Prop) (p : A -> bool) (l : list A) :
  (forall x y, p x = true -> p y = true -> R x y -> R' x y) ->
  StronglySorted R l -> StronglySorted R' (filter p l).
Proof.
  intros Himp HS; induction HS as [|a l HS IH HF]; simpl; [constructor|].
  destruct (p a) eqn:Ha; [|exact IH].
  constructor; [exact IH|].
  apply Forall_forall; intros y Hy; apply filter_In in Hy as [Hy Hpy].
  apply Himp; auto. rewrite Forall_forall in HF; auto.
Qed.

Lemma SS_map_pair {A B} (R : A -> A -> Prop) (g : A -> B) (l : list A) :
  StronglySorted R l -> StronglySorted (fun p q => R (fst p) (fst q)) (map (fun x => (x, g x)) l).
Proof.
  induction 1 as [|a l HS IH HF]; simpl; constructor; [exact IH|].
  apply Forall_forall; intros q Hq; apply in_map_iff in Hq as [y [<- Hy]].
  simpl; rewrite Forall_forall in HF; auto.
Qed.

Lemma filter_all_true {A} (l : list A) : filter (fun _ => true) l = l.
Proof. induction l; simpl; congruence. Qed.

Section SortFacts.
Context {A : Type}.

Lemma insert_desc_perm (p : A * nat) (l : list (A * nat)) :
  Permutation (insert_desc p l) (p :: l).
Proof.
  induction l as [|q r IH]; simpl; [auto|].
  destruct (Nat.leb (snd q) (snd p)); [auto|].
  eapply perm_trans; [apply perm_skip, IH|apply perm_swap].
Qed.

Lemma sort_desc_perm (l : list (A * nat)) : Permutation (sort_desc l) l.
Proof.
  induction l as [|p r IH]; simpl; [auto|].
  eapply perm_trans; [apply insert_desc_perm|auto].
Qed.

Lemma insert_desc_sorted (key : A -> nat) (p : A * nat) (s : list (A * nat)) :
  StronglySorted (rank_before key) s ->
  Forall (fun q => key (fst p) < key (fst q))%nat s ->
  StronglySorted (rank_before key) (insert_desc p s).
Proof.
  induction s as [|q s IH]; intros HS HK; simpl.
  - repeat constructor.
  - inversion HS as [|? ? HS' HF]; subst. inversion HK as [|? ? Hq HK']; subst.
    destruct (Nat.leb (snd q) (snd p)) eqn:E.
    + apply Nat.leb_le in E. constructor; [constructor; auto|].
      constructor; [unfold rank_before; lia|].
      rewrite Forall_forall in HF, HK' |- *; intros x Hx.
      specialize (HF x Hx); specialize (HK' x Hx); unfold rank_before in *; lia.
    + apply Nat.leb_gt in E. constructor; [apply IH; auto|].
      apply Forall_forall; intros x Hx.
      apply (Permutation_in _ (insert_desc_perm p s)) in Hx as [<-|Hx].
      * unfold rank_before; lia.
      * rewrite Forall_forall in HF; auto.
Qed.

Lemma sort_desc_sorted (key : A -> nat) (l : list (A * nat)) :
  StronglySorted (fun p q => key (fst p) < key (fst q))%nat l ->
  StronglySorted (rank_before key) (sort_desc l).
Proof.
  induction 1 as [|p l HS IH HF]; simpl; [constructor|].
  apply insert_desc_sorted; [exact IH|].
  rewrite Forall_forall in HF |- *; intros q Hq.
  apply HF, (Permutation_in _ (sort_desc_perm l)), Hq.
Qed.
End SortFacts.

Section CountFacts.
Context {A : Type} (eqb : A -> A -> bool).
Hypothesis eqb_eq : forall x y, eqb x y = true <-> x = y.

Lemma eqb_refl x : eqb x x = true.
Proof. apply eqb_eq; reflexivity. Qed.

Lemma uniq_first_In x l : In x (uniq_first eqb l) <-> In x l.
Proof.
  induction l as [|a r IH]; simpl; [tauto|].
  rewrite filter_In, IH. destruct (eqb a x) eqn:E; simpl.
  - apply eqb_eq in E; subst; tauto.
  - split; [tauto|]. intros [->|H]; [rewrite eqb_refl in E; discriminate|tauto].
Qed.

Lemma uniq_first_NoDup l : NoDup (uniq_first eqb l).
Proof.
  induction l as [|a r IH]; simpl; constructor.
  - rewrite filter_In, eqb_refl; simpl; intros [_ H]; discriminate.
  - apply NoDup_filter, IH.
Qed.

Lemma uniq_first_sorted l :
  StronglySorted (fun x y => first_pos eqb x l < first_pos eqb y l)%nat (uniq_first eqb l).
Proof.
  induction l as [|a r IH]; simpl; [constructor|].
  constructor.
  - eapply SS_filter_impl; [|exact IH].
    intros x y Hx Hy Hlt; simpl in *.
    destruct (eqb a x), (eqb a y); simpl in *; try discriminate; lia.
  - apply Forall_forall; intros y Hy; apply filter_In in Hy as [_ Hy].
    simpl; rewrite eqb_refl.
    destruct (eqb a y); simpl in *; [discriminate|lia].
Qed.

(** [value_counts] on data without missing values. *)
Lemma value_counts_spec (l : list A) :
  let full := value_counts eqb (fun _ => false) l in
  NoDup (map fst full) /\
  (forall x, In x l -> In (x, count_eq eqb x l) full) /\
  (forall x c, In (x, c) full -> In x l /\ c = count_eq eqb x l) /\
  StronglySorted (rank_before (fun x => first_pos eqb x l)) full.
Proof.
  intros full.
  assert (Hf : full = sort_desc (tally eqb l)).
  { unfold full, value_counts; simpl; rewrite filter_all_true; reflexivity. }
  assert (Hp : Permutation full (tally eqb l)) by (rewrite Hf; apply sort_desc_perm).
  assert (Hfst : map fst (tally eqb l) = uniq_first eqb l).
  { unfold tally; rewrite map_map; simpl; apply map_id. }
  split; [|split; [|split]].
  - eapply Permutation_NoDup; [apply Permutation_sym, Permutation_map, Hp|].
    rewrite Hfst; apply uniq_first_NoDup.
  - intros x Hx. apply (Permutation_in _ (Permutation_sym Hp)).
    unfold tally; apply in_map_iff; exists x; split; [reflexivity|].
    apply uniq_first_In, Hx.
  - intros x c Hx. apply (Permutation_in _ Hp) in Hx.
    unfold tally in Hx; apply in_map_iff in Hx as [y [Hy Hin]].
    injection Hy as -> ->; split; [apply uniq_first_In, Hin|reflexivity].
  - rewrite Hf; apply sort_desc_sorted; unfold tally.
    apply (SS_map_pair (fun x y => first_pos eqb x l < first_pos eqb y l)%nat).
    apply uniq_first_sorted.
Qed.
End CountFacts.

(** ** [value_counts] on a Series of strings *)

Lemma filter_map_comm {A B} (p : B -> bool) (f : A -> B) (l : list A) :
  filter p (map f l) = map f (filter (fun x => p (f x)) l).
Proof. induction l as [|a r IH]; simpl; [reflexivity|]. destruct (p (f a)); simpl; congruence. Qed.

Lemma SS_map {A B} (R : A -> A -> Prop) (R' : B -> B -> Prop) (g : A -> B) (l : list A) :
  (forall x y, R x y -> R' (g x) (g y)) -> StronglySorted R l -> StronglySorted R' (map g l).
Proof.
  intros Hg; induction 1 as [|a l HS IH HF]; simpl; constructor; [exact IH|].
  apply Forall_forall; intros y Hy; apply in_map_iff in Hy as [x [<- Hx]].
  rewrite Forall_forall in HF; auto.
Qed.

Lemma NoDup_map_VStr (l : list string) : NoDup l -> NoDup (map VStr l).
Proof.
  induction 1 as [|a l Ha HN IH]; simpl; constructor; [|exact IH].
  intros H; apply in_map_iff in H as [x [Hx Hin]]; injection Hx as ->; contradiction.
Qed.

Section MapSort.
Context {A B : Type} (g : A -> B).

Lemma insert_desc_map p l : insert_desc ((map_key g) p) (map (map_key g) l) = map (map_key g) (insert_desc p l).
Proof.
  induction l as [|q r IH]; simpl; [reflexivity|].
  destruct (Nat.leb (snd q) (snd p)); simpl; [reflexivity|]. rewrite IH; reflexivity.
Qed.

Lemma sort_desc_map l : sort_desc (map (map_key g) l) = map (map_key g) (sort_desc l).
Proof. induction l as [|p r IH]; simpl; [reflexivity|]. rewrite IH; apply insert_desc_map. Qed.
End MapSort.

Lemma uniq_first_VStr (l : list string) :
  uniq_first py_eqb (map VStr l) = map VStr (uniq_first String.eqb l).
Proof.
  induction l as [|a r IH]; simpl; [reflexivity|].
  rewrite IH, filter_map_comm; reflexivity.
Qed.

Lemma count_eq_VStr (s : string) (l : list string) :
  count_eq py_eqb (VStr s) (map VStr l) = count_eq String.eqb s l.
Proof. unfold count_eq; rewrite filter_map_comm, length_map; reflexivity. Qed.

Lemma first_pos_VStr (s : string) (l : list string) :
  first_pos py_eqb (VStr s) (map VStr l) = first_pos String.eqb s l.
Proof. induction l as [|a r IH]; simpl; [reflexivity|]. rewrite IH; reflexivity. Qed.

Lemma count_eq_count_occ (s : string) (l : list string) :
  count_eq String.eqb s l = count_occ string_dec l s.
Proof.
  unfold count_eq; induction l as [|a r IH]; simpl; [reflexivity|].
  destruct (String.eqb s a) eqn:E, (string_dec a s) as [H|H]; simpl; rewrite ?IH; auto.
  - apply String.eqb_eq in E; congruence.
  - subst; rewrite String.eqb_refl in E; discriminate.
Qed.

Lemma value_counts_VStr (l : list string) :
  value_counts py_eqb py_isna (map VStr l)
  = map (map_key VStr) (value_counts String.eqb (fun _ => false) l).
Proof.
  unfold value_counts; rewrite filter_map_comm; simpl; rewrite !filter_all_true.
  rewrite <- sort_desc_map; f_equal.
  unfold tally; rewrite uniq_first_VStr, !map_map.
  apply map_ext; intros s; unfold map_key; simpl; rewrite count_eq_VStr; reflexivity.
Qed.

(** C4: [top_n_frequency n] over string values counts each distinct string
    by exact match, orders the entries by descending count with ties in
    order of first occurrence in the input, and keeps the first [n] entries;
    on ["A","B","A","C","B","A"] with [n = 2] it gives [("A",3); ("B",2)]. *)
Theorem top_n_frequency_ranked (vals : list string) (n : nat) :
  exists full : list (value * nat),
    top_n_frequency n (map VStr vals) = firstn n full /\
    NoDup (map fst full) /\
    (forall s, In s vals -> In (VStr s, count_occ string_dec vals s) full) /\
    (forall v c, In (v, c) full ->
       exists s, v = VStr s /\ In s vals /\ c = count_occ string_dec vals s) /\
    StronglySorted (rank_before (fun v => first_pos py_eqb v (map VStr vals))) full /\
    top_n_frequency 2 (map VStr ["A"; "B"; "A"; "C"; "B"; "A"])
      = [(VStr "A", 3); (VStr "B", 2)].
Proof.
  exists (value_counts py_eqb py_isna (map VStr vals)).
  destruct (value_counts_spec String.eqb String.eqb_eq vals) as [HN [Hin [Hout HS]]].
  split; [reflexivity|]. rewrite value_counts_VStr. split; [|split; [|split; [|split]]].
  - rewrite map_map; unfold map_key; simpl.
    rewrite <- (map_map fst VStr); apply NoDup_map_VStr, HN.
  - intros s Hs; rewrite <- count_eq_count_occ.
    exact (in_map (map_key VStr) _ _ (Hin s Hs)).
  - intros v c Hvc; apply in_map_iff in Hvc as [[s c'] [Hk Hs]].
    unfold map_key in Hk; simpl in Hk; injection Hk as <- <-.
    apply Hout in Hs as [Hs ->]; exists s; rewrite count_eq_count_occ; auto.
  - eapply SS_map; [|exact HS].
    intros [x cx] [y cy]; unfold rank_before, map_key; simpl.
    rewrite !first_pos_VStr; auto.
  - reflexivity.
Qed.

(** ** Dates: [date_leb] is a total order *)

Ltac zbool :=
  repeat match goal with
         | |- context [Z.ltb ?x ?y] => destruct (Z.ltb_spec x y)
         | |- context [Z.eqb ?x ?y] => destruct (Z.eqb_spec x y)
         | |- context [Z.leb ?x ?y] => destruct (Z.leb_spec x y)
         | H : context [Z.ltb ?x ?y] |- _ => destruct (Z.ltb_spec x y)
         | H : context [Z.eqb ?x ?y] |- _ => destruct (Z.eqb_spec x y)
         | H : context [Z.leb ?x ?y] |- _ => destruct (Z.leb_spec x y)
         end; simpl in *.

Lemma date_leb_refl (a : date) : date_leb a a = true.
Proof. destruct a as [y m d]; unfold date_leb; simpl; zbool; lia. Qed.

Lemma date_leb_antisym (a b : date) : date_leb a b = true -> date_leb b a = true -> a = b.
Proof.
  destruct a as [y1 m1 d1], b as [y2 m2 d2]; unfold date_leb; simpl; intros H1 H2.
  zbool; try discriminate; f_equal; lia.
Qed.

Lemma date_leb_trans (a b c : date) :
  date_leb a b = true -> date_leb b c = true -> date_leb a c = true.
Proof.
  destruct a as [y1 m1 d1], b as [y2 m2 d2], c as [y3 m3 d3]; unfold date_leb; simpl; intros H1 H2.
  zbool; try discriminate; try reflexivity; lia.
Qed.

Lemma date_leb_total (a b : date) : date_leb a b = false -> date_leb b a = true.
Proof.
  destruct a as [y1 m1 d1], b as [y2 m2 d2]; unfold date_leb; simpl; intros H1.
  zbool; try discriminate; try reflexivity; lia.
Qed.

Lemma date_min_le (a b : date) : date_leb (date_min a b) a = true /\ date_leb (date_min a b) b = true.
Proof.
  unfold date_min; destruct (date_leb a b) eqn:E; split; auto using date_leb_refl, date_leb_total.
Qed.

Lemma date_max_ge (a b : date) : date_leb a (date_max a b) = true /\ date_leb b (date_max a b) = true.
Proof.
  unfold date_max; destruct (date_leb a b) eqn:E; split; auto using date_leb_refl, date_leb_total.
Qed.

Lemma fold_min_le (l : list date) (d0 x : date) :
  In x (d0 :: l) -> date_leb (fold_left date_min l d0) x = true.
Proof.
  revert d0 x; induction l as [|y l IH]; intros d0 x Hx; simpl in *.
  - destruct Hx as [<-|[]]; apply date_leb_refl.
  - destruct (date_min_le d0 y) as [H0 Hy].
    destruct Hx as [<-|[<-|Hx]].
    + eapply date_leb_trans; [apply IH; left; reflexivity|exact H0].
    + eapply date_leb_trans; [apply IH; left; reflexivity|exact Hy].
    + apply IH; right; exact Hx.
Qed.

Lemma fold_max_ge (l : list date) (d0 x : date) :
  In x (d0 :: l) -> date_leb x (fold_left date_max l d0) = true.
Proof.
  revert d0 x; induction l as [|y l IH]; intros d0 x Hx; simpl in *.
  - destruct Hx as [<-|[]]; apply date_leb_refl.
  - destruct (date_max_ge d0 y) as [H0 Hy].
    destruct Hx as [<-|[<-|Hx]].
    + eapply date_leb_trans; [exact H0|apply IH; left; reflexivity].
    + eapply date_leb_trans; [exact Hy|apply IH; left; reflexivity].
    + apply IH; right; exact Hx.
Qed.

Lemma min_max_bounds (ds : list date) (mn mx : date) :
  min_max ds = Some (mn, mx) ->
  forall x, In x ds -> date_leb mn x = true /\ date_leb x mx = true.
Proof.
  destruct ds as [|d r]; simpl; [discriminate|]; intros H; injection H as <- <-.
  intros x Hx; split; [apply fold_min_le|apply fold_max_ge]; exact Hx.
Qed.

Lemma filter_id_forall {A} (p : A -> bool) (l : list A) :
  (forall x, In x l -> p x = true) -> filter p l = l.
Proof.
  induction l as [|a r IH]; intros H; simpl; [reflexivity|].
  rewrite (H a (or_introl eq_refl)), IH; [reflexivity|]. intros x Hx; apply H; right; exact Hx.
Qed.

Lemma In_row_dates (to_datetime : value -> option date) (rs : list record) (d : date) :
  In d (row_dates to_datetime rs) <-> exists r, In r rs /\ receipt_date to_datetime r = Some d.
Proof.
  unfold row_dates; rewrite in_flat_map; split.
  - intros [r [Hr Hd]]; exists r; split; [exact Hr|].
    destruct (receipt_date to_datetime r); simpl in Hd; [destruct Hd as [->|[]]; reflexivity|contradiction].
  - intros [r [Hr Hd]]; exists r; split; [exact Hr|]; rewrite Hd; left; reflexivity.
Qed.

(** C7: the date-range filter keeps exactly the rows whose receipt date lies
    in the closed interval [[start, end]]; with [start = end = d] it keeps
    exactly the rows dated [d]; with an interval holding no observed date it
    keeps no row. *)
Theorem filter_by_range_closed (to_datetime : value -> option date) (f : frame) (start stop : date) :
  cols (filter_by_range to_datetime f start stop) = cols f /\
  (forall r, In r (rows (filter_by_range to_datetime f start stop)) <->
             In r (rows f) /\
             exists d, receipt_date to_datetime r = Some d /\
                       date_leb start d = true /\ date_leb d stop = true) /\
  (forall d r, In r (rows (filter_by_range to_datetime f d d)) <->
               In r (rows f) /\ receipt_date to_datetime r = Some d) /\
  ((forall d, In d (row_dates to_datetime (rows f)) ->
              date_leb start d = false \/ date_leb d stop = false) ->
   rows (filter_by_range to_datetime f start stop) = []).
Proof.
  split; [reflexivity|]. split; [|split].
  - intros r; simpl; rewrite filter_In; unfold in_range.
    destruct (receipt_date to_datetime r) as [d|]; split.
    + intros [Hr H]; apply andb_true_iff in H; split; [exact Hr|exists d; tauto].
    + intros [Hr [x [Hx H]]]; injection Hx as <-; rewrite andb_true_iff; tauto.
    + intros [_ H]; discriminate.
    + intros [_ [x [Hx _]]]; discriminate.
  - intros d r; simpl; rewrite filter_In; unfold in_range.
    destruct (receipt_date to_datetime r) as [x|]; split.
    + intros [Hr H]; apply andb_true_iff in H as [H1 H2].
      split; [exact Hr|f_equal; apply date_leb_antisym; assumption].
    + intros [Hr Hx]; injection Hx as ->; rewrite date_leb_refl; auto.
    + intros [_ H]; discriminate.
    + intros [_ H]; discriminate.
  - intros Hout; simpl.
    destruct (filter (in_range to_datetime start stop) (rows f)) as [|r rs] eqn:E; [reflexivity|exfalso].
    assert (Hr : In r (filter (in_range to_datetime start stop) (rows f))) by (rewrite E; left; reflexivity).
    apply filter_In in Hr as [Hr Hin]; unfold in_range in Hin.
    destruct (receipt_date to_datetime r) as [x|] eqn:Hx; [|discriminate].
    apply andb_true_iff in Hin as [H1 H2].
    destruct (Hout x) as [H|H]; [apply In_row_dates; exists r; auto|congruence|congruence].
Qed.

(** ** The full observed range *)

Lemma row_dates_dated (to_datetime : value -> option date) (rs : list record) :
  row_dates to_datetime (filter (is_dated to_datetime) rs) = row_dates to_datetime rs.
Proof.
  induction rs as [|r rs IH]; simpl; [reflexivity|].
  unfold is_dated at 1; destruct (receipt_date to_datetime r) eqn:E; simpl; rewrite ?E, IH; reflexivity.
Qed.

Lemma drop_undated_dated (to_datetime : value -> option date) (f : frame) :
  forallb (is_dated to_datetime) (rows (drop_undated to_datetime f)) = true.
Proof.
  apply forallb_forall; intros r Hr; simpl in Hr; apply filter_In in Hr; tauto.
Qed.

Lemma filter_full_range (to_datetime : value -> option date) (f : frame) (mn mx : date) :
  forallb (is_dated to_datetime) (rows f) = true ->
  min_max (row_dates to_datetime (rows f)) = Some (mn, mx) ->
  filter_by_range to_datetime f mn mx = f.
Proof.
  intros Hd Hm; destruct f as [cs rs]; unfold filter_by_range; simpl in *; f_equal.
  apply filter_id_forall; intros r Hr.
  rewrite forallb_forall in Hd; specialize (Hd r Hr); unfold is_dated in Hd; unfold in_range.
  destruct (receipt_date to_datetime r) as [d|] eqn:E; [|discriminate].
  destruct (min_max_bounds _ _ _ Hm d) as [H1 H2]; [apply In_row_dates; exists r; auto|].
  rewrite H1, H2; reflexivity.
Qed.

Lemma min_max_cons (d : date) (ds : list date) : exists mn mx, min_max (d :: ds) = Some (mn, mx).
Proof. simpl; eauto. Qed.

(** C6: on a set of dated rows, filtering to the observed minimum and maximum
    dates returns the same frame, so every panel of [app 001.py] (frequency
    tables, monthly series, mean age) is unchanged; the untouched slider of
    [app 001.py] yields exactly the dated rows, and that of [app.py] the
    series of all dated rows. *)
Theorem full_range_roundtrip (float_of_str : string -> option float)
    (to_datetime : value -> option date) (np_sum : list float -> float)
    (f : frame) (mn mx : date)
    (Hdated : forallb (is_dated to_datetime) (rows f) = true)
    (Hrange : min_max (row_dates to_datetime (rows f)) = Some (mn, mx)) :
  filter_by_range to_datetime f mn mx = f /\
  panels_001 float_of_str to_datetime np_sum (filter_by_range to_datetime f mn mx)
    = panels_001 float_of_str to_datetime np_sum f /\
  (forall data, has_col "receiptdate" (frame_of data) = true ->
     working_frame_001 to_datetime (frame_of data) None
       = drop_undated to_datetime (with_receipt_date (frame_of data))) /\
  (forall df, has_col "receiptdate" df = true ->
     existsb (is_dated to_datetime) (rows df) = true ->
     time_series_app to_datetime df None
       = Some (bucket_by_month (row_dates to_datetime (rows df)))).
Proof.
  assert (Hf : filter_by_range to_datetime f mn mx = f) by (apply filter_full_range; assumption).
  split; [exact Hf|]. split; [rewrite Hf; reflexivity|]. split.
  - intros data Hc; unfold working_frame_001; rewrite Hc.
    set (df1 := drop_undated to_datetime (with_receipt_date (frame_of data))).
    destruct (min_max (row_dates to_datetime (rows df1))) as [[a b]|] eqn:E; [|reflexivity].
    unfold slider; destruct (date_eqb a b); [reflexivity|].
    apply filter_full_range; [apply drop_undated_dated|exact E].
  - intros df Hc Hex; unfold time_series_app; rewrite Hc.
    set (df1 := drop_undated to_datetime (with_receipt_date df)).
    assert (Hdates : row_dates to_datetime (rows df1) = row_dates to_datetime (rows df))
      by (unfold df1; simpl; apply row_dates_dated).
    assert (Hne : row_dates to_datetime (rows df) <> []).
    { apply existsb_exists in Hex as [r [Hr Hd]]; unfold is_dated in Hd.
      destruct (receipt_date to_datetime r) as [x|] eqn:Ex; [|discriminate].
      intros Hnil; assert (Hin : In x (row_dates to_datetime (rows df)))
        by (apply In_row_dates; exists r; auto).
      rewrite Hnil in Hin; exact Hin. }
    destruct (row_dates to_datetime (rows df1)) as [|d ds] eqn:Ed; [congruence|].
    destruct (min_max_cons d ds) as [a [b Hab]]; rewrite Hab.
    assert (Hfull : filter_by_range to_datetime df1 a b = df1).
    { apply filter_full_range; [apply drop_undated_dated|rewrite Ed; exact Hab]. }
    destruct (slider a b None) as [[a' b']|] eqn:Es.
    1: unfold slider in Es; destruct (date_eqb a b); [discriminate|injection Es as <- <-].
    all: cbv beta iota; rewrite Hfull; destruct (rows df1) as [|r0 rs0] eqn:Er;
      [simpl in Ed; discriminate|rewrite Ed, Hdates; reflexivity].
Qed.

(** Witness of [full_range_roundtrip]. *)
Lemma full_range_roundtrip_witness :
  let f := mkFrame ["receiptdate"] [[("receiptdate", VStr "20240105")]; [("receiptdate", VStr "20240210")]] in
  filter_by_range parse_yyyymmdd f (mkDate 2024 1 5) (mkDate 2024 2 10) = f.
Proof.
  intros f.
  apply (full_range_roundtrip float_of_digits parse_yyyymmdd sum_seq f (mkDate 2024 1 5) (mkDate 2024 2 10));
    vm_compute; reflexivity.
Defined.

(** ** Where the undated rows are dropped *)

Lemma in_filter_by_range (to_datetime : value -> option date) (f : frame) (a b : date) (r : record) :
  In r (rows (filter_by_range to_datetime f a b)) -> In r (rows f).
Proof. simpl; rewrite filter_In; tauto. Qed.

Lemma in_drop_undated (to_datetime : value -> option date) (f : frame) (r : record) :
  In r (rows (drop_undated to_datetime f)) <-> In r (rows f) /\ is_dated to_datetime r = true.
Proof. simpl; apply filter_In. Qed.

(** C1 (as the code does it): in [app 001.py] the working frame every panel
    reads holds only fetched rows with a valid receipt date, whenever the
    fetched records have a [receiptdate] column; in [app.py] the sex,
    country, drug, reaction and age panels read the whole fetched frame, and
    only the monthly series is built from dated rows. *)
Theorem date_drop_scope (float_of_str : string -> option float)
    (to_datetime : value -> option date) (np_sum : list float -> float)
    (data : list record) (sel : option (date * date)) :
  (has_col "receiptdate" (frame_of data) = true ->
   forall r, In r (rows (working_frame_001 to_datetime (frame_of data) sel)) ->
             In r data /\ is_dated to_datetime r = true) /\
  (data <> [] -> rows (working_frame_001 to_datetime (frame_of data) sel) <> [] ->
   dashboard_001 float_of_str to_datetime np_sum data sel
     = (p <- panels_001 float_of_str to_datetime np_sum
               (working_frame_001 to_datetime (frame_of data) sel) ;; Ok (Shown p))) /\
  (forall p, panels_app float_of_str to_datetime np_sum (frame_of data) sel = Ok p ->
   gender p = gender_counts (frame_of data) /\
   country_counts (frame_of data) = Ok (countries p) /\
   products p = product_counts (frame_of data) /\
   reactions p = reaction_counts (frame_of data) /\
   age_panel float_of_str np_sum (frame_of data) = Ok (age_mean p) /\
   (forall ts, series p = Some ts ->
      exists rs, incl rs data /\ forallb (is_dated to_datetime) rs = true /\
                 ts = bucket_by_month (row_dates to_datetime rs))).
Proof.
  split; [|split].
  - intros Hc r Hr; unfold working_frame_001 in Hr; rewrite Hc in Hr.
    set (df1 := drop_undated to_datetime (with_receipt_date (frame_of data))) in Hr.
    assert (Hdf1 : In r (rows df1) -> In r data /\ is_dated to_datetime r = true)
      by (intros H; apply in_drop_undated in H; exact H).
    destruct (min_max (row_dates to_datetime (rows df1))) as [[mn mx]|]; [|auto].
    destruct (slider mn mx sel) as [[a b]|]; [|auto].
    apply Hdf1; eapply in_filter_by_range; exact Hr.
  - intros Hd Hw; unfold dashboard_001.
    destruct data as [|r0 rs0]; [congruence|].
    destruct (rows (working_frame_001 to_datetime (frame_of (r0 :: rs0)) sel)); [congruence|reflexivity].
  - intros p Hp; unfold panels_app in Hp.
    destruct (country_counts (frame_of data)) as [cs|e] eqn:Ec; [|discriminate]; simpl in Hp.
    destruct (age_panel float_of_str np_sum (frame_of data)) as [am|e] eqn:Ea; [|discriminate]; simpl in Hp.
    injection Hp as <-; simpl.
    split; [reflexivity|split; [reflexivity|split; [reflexivity|split; [reflexivity|split; [reflexivity|]]]]].
    intros ts Hts; unfold time_series_app in Hts.
    destruct (has_col "receiptdate" (frame_of data)); [|discriminate].
    set (df1 := drop_undated to_datetime (with_receipt_date (frame_of data))) in Hts.
    destruct (min_max (row_dates to_datetime (rows df1))) as [[mn mx]|]; [|discriminate].
    destruct (match slider mn mx sel with Some q => q | None => (mn, mx) end) as [a b].
    destruct (rows (filter_by_range to_datetime df1 a b)) as [|r1 rs1] eqn:Ef; [discriminate|].
    injection Hts as <-.
    exists (rows (filter_by_range to_datetime df1 a b)); split; [|split].
    + intros r Hr; apply in_filter_by_range, in_drop_undated in Hr; tauto.
    + apply forallb_forall; intros r Hr; apply in_filter_by_range, in_drop_undated in Hr; tauto.
    + rewrite Ef; reflexivity.
Qed.

(** C1 fails on [app.py]: a record whose receipt date does not parse is
    still counted in the sex panel, while the series counts only the dated
    record. *)
Lemma undated_row_counted_app :
  let r1 : record := [("receiptdate", VStr "20240105"); ("patient", VDict [("patientsex", VStr "1")]);
                      ("primarysource", VDict [("reportercountry", VStr "US")])] in
  let r2 : record := [("receiptdate", VStr "2024-13-45"); ("patient", VDict [("patientsex", VStr "2")]);
                      ("primarysource", VDict [("reportercountry", VStr "US")])] in
  receipt_date parse_yyyymmdd r2 = None /\
  exists p,
    dashboard_app float_of_digits parse_yyyymmdd sum_seq [r1; r2] None = Ok (Shown p) /\
    gender p = Some [("Masculino", 1); ("Feminino", 1)] /\
    countries p = [(VStr "US", 2)] /\
    series p = Some [(mkDate 2024 1 31, 1)].
Proof.
  intros r1 r2; split; [vm_compute; reflexivity|].
  eexists; split; [vm_compute; reflexivity|]; vm_compute; auto.
Qed.

(** ** The country panel *)

(** C2: the country column is read without checking that it exists: when no
    fetched record has a [primarysource] field both scripts stop with a
    [KeyError]; and a [reportercountry] holding [null] is returned as it is,
    not as the sentinel. *)
Theorem country_without_primarysource (float_of_str : string -> option float)
    (to_datetime : value -> option date) (np_sum : list float -> float)
    (sel : option (date * date)) :
  let data : list record := [[("receiptdate", VStr "20240105")]] in
  dashboard_app float_of_str to_datetime np_sum data sel = Err (KeyError "primarysource") /\
  dashboard_001 float_of_digits parse_yyyymmdd np_sum data None = Err (KeyError "primarysource") /\
  get_country (VDict [("reportercountry", VNone)]) = VNone.
Proof. split; [|split]; reflexivity. Qed.

(** ** Monthly buckets *)

Lemma fold_min_bounds (l : list Z) (z : Z) :
  (forall x, In x (z :: l) -> (fold_left Z.min l z <= x)%Z) /\ In (fold_left Z.min l z) (z :: l).
Proof.
  revert z; induction l as [|y l IH]; intros z; simpl.
  - split; [intros x [<-|[]]; lia|left; reflexivity].
  - destruct (IH (Z.min z y)) as [H1 H2]; split.
    + intros x [<-|[<-|Hx]].
      * specialize (H1 (Z.min z y) (or_introl eq_refl)); lia.
      * specialize (H1 (Z.min z y) (or_introl eq_refl)); lia.
      * apply H1; right; exact Hx.
    + destruct H2 as [H2|H2]; [|right; right; exact H2].
      rewrite <- H2; destruct (Z.min_spec z y) as [[_ ->]|[_ ->]]; auto.
Qed.

Lemma fold_max_bounds (l : list Z) (z : Z) :
  (forall x, In x (z :: l) -> (x <= fold_left Z.max l z)%Z) /\ In (fold_left Z.max l z) (z :: l).
Proof.
  revert z; induction l as [|y l IH]; intros z; simpl.
  - split; [intros x [<-|[]]; lia|left; reflexivity].
  - destruct (IH (Z.max z y)) as [H1 H2]; split.
    + intros x [<-|[<-|Hx]].
      * specialize (H1 (Z.max z y) (or_introl eq_refl)); lia.
      * specialize (H1 (Z.max z y) (or_introl eq_refl)); lia.
      * apply H1; right; exact Hx.
    + destruct H2 as [H2|H2]; [|right; right; exact H2].
      rewrite <- H2; destruct (Z.max_spec z y) as [[_ ->]|[_ ->]]; auto.
Qed.

Lemma In_zrange (lo hi k : Z) : In k (zrange lo hi) <-> (lo <= k <= hi)%Z.
Proof.
  unfold zrange; rewrite in_map_iff; split.
  - intros [i [<- Hi]]; apply in_seq in Hi; lia.
  - intros Hk; exists (Z.to_nat (k - lo)); split; [lia|apply in_seq; lia].
Qed.

Lemma month_index_month_end (x : date) (k : Z) :
  (1 <= month x <= 12)%Z ->
  (month_index x = k <-> year x = year (month_end k) /\ month x = month (month_end k)).
Proof.
  intros Hm; unfold month_index, month_end; simpl.
  pose proof (Z.div_mod k 12 ltac:(lia)); pose proof (Z.mod_pos_bound k 12 ltac:(lia)).
  split; [intros <-|intros [Hy Hmo]]; lia.
Qed.

(** C3 fails: [freq='ME'] bins also cover the months without any row
    between the first and the last one, with count 0. *)
Lemma bucket_by_month_zero_month :
  bucket_by_month [mkDate 2024 1 15; mkDate 2024 3 10]
  = [(mkDate 2024 1 31, 1); (mkDate 2024 2 29, 0); (mkDate 2024 3 31, 1)].
Proof. vm_compute; reflexivity. Qed.

(** C3 (as the code does it): for a non-empty list of dates, the buckets are
    the month ends of every calendar month from the earliest to the latest
    month holding a date, in order, and each bucket counts the dates of its
    month-year, zero for a month without rows. *)
Theorem bucket_by_month_spans (d : date) (ds : list date) :
  let all := d :: ds in
  exists lo hi : Z,
    (exists x, In x all /\ month_index x = lo) /\
    (exists x, In x all /\ month_index x = hi) /\
    (forall x, In x all -> (lo <= month_index x <= hi)%Z) /\
    map fst (bucket_by_month all) = map month_end (zrange lo hi) /\
    (forall e c, In (e, c) (bucket_by_month all) ->
       exists k, e = month_end k /\ (lo <= k <= hi)%Z /\ c = month_count all k) /\
    (forall k, (lo <= k <= hi)%Z -> In (month_end k, month_count all k) (bucket_by_month all)) /\
    (forall x k, (1 <= month x <= 12)%Z ->
       (month_index x = k <-> year x = year (month_end k) /\ month x = month (month_end k))).
Proof.
  intros all.
  exists (fold_left Z.min (map month_index ds) (month_index d)),
         (fold_left Z.max (map month_index ds) (month_index d)).
  destruct (fold_min_bounds (map month_index ds) (month_index d)) as [Hlo1 Hlo2].
  destruct (fold_max_bounds (map month_index ds) (month_index d)) as [Hhi1 Hhi2].
  assert (Hall : forall x, In x all <-> In x (d :: ds)) by (intros; reflexivity).
  assert (Hidx : forall z, In z (month_index d :: map month_index ds) <->
                           exists x, In x all /\ month_index x = z).
  { intros z; change (month_index d :: map month_index ds) with (map month_index all).
    rewrite in_map_iff; firstorder. }
  split; [apply Hidx, Hlo2|]. split; [apply Hidx, Hhi2|]. split.
  - intros x Hx; split; [apply Hlo1|apply Hhi1];
      change (month_index d :: map month_index ds) with (map month_index all); apply in_map, Hx.
  - simpl bucket_by_month; split; [|split; [|split]].
    + rewrite map_map; reflexivity.
    + intros e c H; apply in_map_iff in H as [k [Hk Hin]]; injection Hk as <- <-.
      apply In_zrange in Hin; exists k; auto.
    + intros k Hk; apply in_map_iff; exists k; split; [reflexivity|apply In_zrange, Hk].
    + apply month_index_month_end.
Qed.

(** ** Ages *)

(** C5 evaluated: the table gives [72] decades as [720.0], and an unknown
    unit or a non-numeric string as absent; but an integer age too large for
    a float makes [float()] raise [OverflowError], which the
    [except (ValueError, TypeError)] clause does not catch. *)
Theorem normalize_age_overflow (float_of_str : string -> option float) :
  get_normalized_age float_of_str
    (VDict [("patientonsetage", VInt (10 ^ 400)); ("patientonsetageunit", VStr "801")])
    = Err OverflowError /\
  get_normalized_age float_of_str
    (VDict [("patientonsetage", VInt 72); ("patientonsetageunit", VStr "800")])
    = Ok (Some 720%float) /\
  get_normalized_age float_of_str
    (VDict [("patientonsetage", VInt 5); ("patientonsetageunit", VStr "999")])
    = Ok None /\
  get_normalized_age float_of_digits
    (VDict [("patientonsetage", VStr "abc"); ("patientonsetageunit", VStr "801")])
    = Ok None.
Proof. split; [|split; [|split]]; vm_compute; reflexivity. Qed.

Lemma map_result_ok {A B} (f : A -> result B) (l : list A) (ys : list B) :
  map_result f l = Ok ys ->
  (forall y, In y ys -> exists x, In x l /\ f x = Ok y) /\
  (forall x y, In x l -> f x = Ok y -> In y ys).
Proof.
  revert ys; induction l as [|a r IH]; intros ys H; simpl in H.
  - injection H as <-; split; intros; simpl in *; contradiction.
  - destruct (f a) as [b|e] eqn:Ea; [|discriminate]; simpl in H.
    destruct (map_result f r) as [bs|e] eqn:Er; [|discriminate]; simpl in H.
    injection H as <-; destruct (IH bs eq_refl) as [H1 H2]; split.
    + intros y [<-|Hy]; [exists a; split; [left|]; auto|].
      destruct (H1 y Hy) as [x [Hx Hfx]]; exists x; split; [right|]; auto.
    + intros x y [<-|Hx] Hfx; [rewrite Ea in Hfx; injection Hfx as <-; left; reflexivity|].
      right; apply (H2 x); auto.
Qed.

(** C8 fails: ages that overflow to [+inf] and [-inf] after the unit
    conversion are kept by [dropna()], and their mean is reported as NaN. *)
Lemma age_mean_nan :
  exists x,
    age_summary float_of_digits sum_seq
      [VDict [("patientonsetage", VInt (10 ^ 308)); ("patientonsetageunit", VStr "800")];
       VDict [("patientonsetage", VInt (- 10 ^ 308)); ("patientonsetageunit", VStr "800")]]
    = Ok (Some x) /\ PrimFloat.is_nan x = true.
Proof. eexists; split; vm_compute; reflexivity. Qed.

(** C8 (as the code does it): when the normalized ages can be computed, the
    valid ages are exactly the non-absent, non-NaN normalized ages; the
    summary is absent exactly when there is none, and otherwise it is their
    float sum divided by their number, so no division by zero happens. *)
Theorem age_summary_mean (float_of_str : string -> option float) (np_sum : list float -> float)
    (ps : list value) (ages : list float)
    (Hok : valid_ages float_of_str ps = Ok ages) :
  (forall x, In x ages <->
     PrimFloat.is_nan x = false /\
     exists p, In p ps /\ get_normalized_age float_of_str p = Ok (Some x)) /\
  (age_summary float_of_str np_sum ps = Ok None <-> ages = []) /\
  (ages <> [] ->
   age_summary float_of_str np_sum ps
     = Ok (Some (np_sum ages / float_of_nat (List.length ages))%float)).
Proof.
  unfold valid_ages in Hok.
  destruct (map_result (get_normalized_age float_of_str) ps) as [ns|e] eqn:E; [|discriminate].
  simpl in Hok; injection Hok as Hages.
  destruct (map_result_ok _ _ _ E) as [H1 H2].
  assert (Hsum : age_summary float_of_str np_sum ps = Ok (mean_report np_sum ages)).
  { unfold age_summary, valid_ages; rewrite E; simpl; rewrite Hages; reflexivity. }
  split; [|split].
  - intros x; rewrite <- Hages, filter_In, in_flat_map; split.
    + intros [[o [Ho Hx]] Hn]; destruct o as [y|]; [|contradiction].
      destruct Hx as [<-|[]]; split; [destruct (PrimFloat.is_nan y); auto; discriminate|].
      destruct (H1 _ Ho) as [p [Hp Hfp]]; exists p; auto.
    + intros [Hn [p [Hp Hfp]]]; split; [exists (Some x); split; [apply (H2 p); auto|left; reflexivity]|].
      rewrite Hn; reflexivity.
  - rewrite Hsum; destruct ages; simpl; split; auto; discriminate.
  - intros Hne; rewrite Hsum; destruct ages; [congruence|reflexivity].
Qed.

(** Witness of [age_summary_mean]. *)
Lemma age_summary_mean_witness :
  age_summary float_of_digits sum_seq
    [VDict [("patientonsetage", VStr "72"); ("patientonsetageunit", VStr "801")]; VNone]
  = Ok (Some (sum_seq [72%float] / float_of_nat 1)%float).
Proof.
  apply (age_summary_mean float_of_digits sum_seq
           [VDict [("patientonsetage", VStr "72"); ("patientonsetageunit", VStr "801")]; VNone]
           [72%float]); [vm_compute; reflexivity|].
  discriminate.
Defined.

(** ** Drug and reaction names *)

(** C9: the drug and reaction extractors keep [entry[name]] for every dict
    entry holding the key, whatever its value: [null] and numbers included. *)
Theorem names_kept_untyped :
  (forall d entries de v,
     lookup "drug" d = Some (VList entries) -> In (VDict de) entries ->
     lookup "medicinalproduct" de = Some v -> In v (get_medicinal_products (VDict d))) /\
  (forall d entries de v,
     lookup "reaction" d = Some (VList entries) -> In (VDict de) entries ->
     lookup "reactionmeddrapt" de = Some v -> In v (get_reactions (VDict d))) /\
  get_medicinal_products
    (VDict [("drug", VList [VDict [("medicinalproduct", VNone)];
                            VDict [("medicinalproduct", VInt 7)];
                            VDict [("medicinalproduct", VStr "ASPIRIN")]])])
    = [VNone; VInt 7; VStr "ASPIRIN"] /\
  get_reactions (VDict [("reaction", VList [VDict [("reactionmeddrapt", VList [])]])]) = [VList []].
Proof.
  assert (H : forall listkey name d entries de v,
             lookup listkey d = Some (VList entries) -> In (VDict de) entries ->
             lookup name de = Some v -> In v (get_list_names listkey name (VDict d))).
  { intros listkey name d entries de v Hd Hin Hv; simpl; rewrite Hd.
    unfold names_in; apply in_flat_map; exists (VDict de); split; [exact Hin|rewrite Hv; left; reflexivity]. }
  split; [|split; [|split]].
  - intros; eapply H; eauto.
  - intros; eapply H; eauto.
  - reflexivity.
  - reflexivity.
Qed.

(** ** Sex categories *)

Lemma count_eq_pos {A} (eqb : A -> A -> bool) (x : A) (l : list A) :
  eqb x x = true -> In x l -> (1 <= count_eq eqb x l)%nat.
Proof.
  intros Hx Hin; unfold count_eq.
  assert (H : In x (filter (eqb x) l)) by (apply filter_In; auto).
  destruct (filter (eqb x) l); [contradiction|simpl; lia].
Qed.

(** C10: a raw sex value is labelled male or female only when it is one of
    the strings "1", "2", "M", "F"; ints, lowercase letters, None and any
    other value get the sentinel "Não Informado", and the sex table holds the
    sentinel with a positive count as soon as one row gets it. *)
Theorem gender_label_exact :
  (forall v, gender_label v <> unspecified -> exists s, v = VStr s /\ In s ["1"; "2"; "M"; "F"]) /\
  (forall s, In s ["1"; "2"; "M"; "F"] -> gender_label (VStr s) <> unspecified) /\
  gender_label (VInt 1) = unspecified /\ gender_label (VInt 2) = unspecified /\
  gender_label (VStr "m") = unspecified /\ gender_label (VStr "f") = unspecified /\
  gender_label VNone = unspecified /\ gender_label nan_cell = unspecified /\
  (forall f tbl, gender_counts f = Some tbl ->
     (exists p, In p (patients f) /\ gender_label (get_sex p) = unspecified) ->
     exists c, In (unspecified, c) tbl /\ (1 <= c)%nat).
Proof.
  split; [|split; [|split; [|split; [|split; [|split; [|split; [|split]]]]]]].
  - intros v Hv; destruct v; try (exfalso; apply Hv; reflexivity).
    exists s; split; [reflexivity|].
    revert Hv; unfold gender_label, gender_codes; cbn [find fst py_eqb].
    destruct (String.eqb_spec "1" s) as [<-|H1]; [simpl; auto|].
    destruct (String.eqb_spec "2" s) as [<-|H2]; [simpl; auto|].
    destruct (String.eqb_spec "M" s) as [<-|H3]; [simpl; auto|].
    destruct (String.eqb_spec "F" s) as [<-|H4]; [simpl; auto|].
    intros Hv; exfalso; apply Hv; reflexivity.
  - intros s [<-|[<-|[<-|[<-|[]]]]]; vm_compute; discriminate.
  - reflexivity.
  - reflexivity.
  - reflexivity.
  - reflexivity.
  - reflexivity.
  - reflexivity.
  - intros f tbl Hg [p [Hp Hl]]; unfold gender_counts in Hg.
    destruct (has_col "patient" f); [|discriminate]; injection Hg as <-.
    set (labels := map (fun p => gender_label (get_sex p)) (patients f)).
    destruct (value_counts_spec String.eqb String.eqb_eq labels) as [_ [Hin _]].
    assert (Hu : In unspecified labels) by (rewrite <- Hl; apply (in_map (fun p => gender_label (get_sex p))); exact Hp).
    exists (count_eq String.eqb unspecified labels); split; [apply Hin, Hu|].
    apply count_eq_pos; [apply String.eqb_refl|exact Hu].
Qed.

(** * Further properties of the dashboard code *)

(** ** Counting: totals of frequency tables *)

Lemma list_sum_perm (l l' : list nat) : Permutation l l' -> list_sum l = list_sum l'.
Proof. induction 1; simpl; lia. Qed.

Lemma list_sum_map_add {A} (f g : A -> nat) (l : list A) :
  list_sum (map (fun x => f x + g x) l) = list_sum (map f l) + list_sum (map g l).
Proof. induction l as [|a r IH]; simpl; lia. Qed.

Lemma uniq_first_incl {A} (eqb : A -> A -> bool) (x : A) (l : list A) :
  In x (uniq_first eqb l) -> In x l.
Proof.
  induction l as [|a r IH]; simpl; [tauto|].
  intros [->|H]; [left; reflexivity|right; apply filter_In in H; tauto].
Qed.

Lemma NoDup_map_inj {A B} (f : A -> B) (l : list A) :
  (forall x y, f x = f y -> x = y) -> NoDup l -> NoDup (map f l).
Proof.
  intros Hf; induction 1 as [|a l Ha HN IH]; simpl; constructor; [|exact IH].
  intros H; apply in_map_iff in H as [x [Hx Hin]]; apply Hf in Hx; subst; contradiction.
Qed.

Lemma filter_nil_forall {A} (p : A -> bool) (l : list A) :
  filter p l = [] <-> (forall x, In x l -> p x = false).
Proof.
  induction l as [|a r IH]; simpl; [split; [tauto|reflexivity]|].
  destruct (p a) eqn:E; split.
  - discriminate.
  - intros H; rewrite (H a (or_introl eq_refl)) in E; discriminate.
  - intros H x [<-|Hx]; [exact E|apply IH; auto].
  - intros H; apply IH; auto.
Qed.

Section CountSum.
Context {A : Type} (eqb : A -> A -> bool).
Hypothesis eqb_eq : forall x y, eqb x y = true <-> x = y.

Lemma hits_absent (a : A) (U : list A) :
  ~ In a U -> list_sum (map (fun x => if eqb x a then 1 else 0) U) = 0.
Proof.
  induction U as [|b U IH]; simpl; [reflexivity|]; intros H.
  destruct (eqb b a) eqn:E; [apply eqb_eq in E; subst; tauto|].
  rewrite IH; auto.
Qed.

Lemma hits_once (a : A) (U : list A) :
  NoDup U -> In a U -> list_sum (map (fun x => if eqb x a then 1 else 0) U) = 1.
Proof.
  induction 1 as [|b U Hb HN IH]; simpl; [tauto|]; intros Ha.
  destruct (eqb b a) eqn:E.
  - apply eqb_eq in E; subst; rewrite hits_absent; auto.
  - destruct Ha as [->|Ha]; [rewrite (proj2 (eqb_eq a a) eq_refl) in E; discriminate|].
    simpl; apply IH, Ha.
Qed.

(** Counting every element of [l] against a duplicate-free list of keys
    covering [l] accounts for all of [l]. *)
Lemma count_cover (U l : list A) :
  NoDup U -> (forall y, In y l -> In y U) ->
  list_sum (map (fun x => count_eq eqb x l) U) = List.length l.
Proof.
  intros HN; induction l as [|a r IH]; intros Hc.
  - unfold count_eq; simpl; clear Hc HN; induction U; simpl; auto.
  - transitivity (list_sum (map (fun x => (if eqb x a then 1 else 0) + count_eq eqb x r) U)).
    + f_equal; apply map_ext; intros x; unfold count_eq; simpl; destruct (eqb x a); reflexivity.
    + rewrite list_sum_map_add, hits_once, IH; simpl; auto.
      * intros y Hy; apply Hc; right; exact Hy.
      * apply Hc; left; reflexivity.
Qed.

(** The counts of [value_counts] add up to the number of non-missing
    values. *)
Lemma value_counts_total (isna : A -> bool) (l : list A) :
  list_sum (map snd (value_counts eqb isna l)) = List.length (filter (fun x => negb (isna x)) l).
Proof.
  unfold value_counts; set (l' := filter _ l).
  rewrite (list_sum_perm _ (map snd (tally eqb l'))) by (apply Permutation_map, sort_desc_perm).
  unfold tally; rewrite map_map; simpl.
  apply count_cover; [apply uniq_first_NoDup, eqb_eq|].
  intros y Hy; apply uniq_first_In; auto.
Qed.
End CountSum.

Lemma gender_label_range (v : value) :
  In (gender_label v) ["Masculino"; "Feminino"; unspecified].
Proof.
  unfold gender_label; destruct (find _ gender_codes) as [[k lbl]|] eqn:E; [|simpl; auto].
  apply find_some in E as [Hin _]; simpl in Hin.
  destruct Hin as [H|[H|[H|[H|[]]]]]; injection H as _ <-; simpl; auto.
Qed.

(** The sex panel of either script accounts for every row of the frame it
    reads: its counts add up to the number of rows, its labels are distinct
    and among "Masculino", "Feminino" and "Não Informado" with a positive
    count each, so the pie has at most three slices and is empty only for a
    frame without rows. *)
Theorem gender_table_total (f : frame) (tbl : list (string * nat)) :
  gender_counts f = Some tbl ->
  list_sum (map snd tbl) = List.length (rows f) /\
  NoDup (map fst tbl) /\
  (forall k c, In (k, c) tbl -> In k ["Masculino"; "Feminino"; unspecified] /\ (1 <= c)%nat) /\
  (List.length tbl <= 3)%nat /\
  (tbl = [] <-> rows f = []).
Proof.
  unfold gender_counts; destruct (has_col "patient" f); [|discriminate]; intros H; injection H as <-.
  set (labels := map (fun p => gender_label (get_sex p)) (patients f)).
  assert (Hsum : list_sum (map snd (value_counts String.eqb (fun _ => false) labels)) = List.length (rows f)).
  { rewrite value_counts_total by apply String.eqb_eq; rewrite filter_all_true.
    unfold labels, patients; rewrite !length_map; reflexivity. }
  destruct (value_counts_spec String.eqb String.eqb_eq labels) as [HN [Hin [Hout _]]].
  assert (Hkeys : forall k c, In (k, c) (value_counts String.eqb (fun _ => false) labels) ->
                  In k ["Masculino"; "Feminino"; unspecified] /\ (1 <= c)%nat).
  { intros k c Hkc; apply Hout in Hkc as [Hk ->]; split.
    - unfold labels in Hk; apply in_map_iff in Hk as [p [<- _]]; apply gender_label_range.
    - apply count_eq_pos; [apply String.eqb_refl|exact Hk]. }
  split; [exact Hsum|split; [exact HN|split; [exact Hkeys|split]]].
  - rewrite <- (length_map fst); change 3%nat with (List.length ["Masculino"; "Feminino"; unspecified]).
    apply NoDup_incl_length; [exact HN|].
    intros k Hk; apply in_map_iff in Hk as [[k' c] [<- Hkc]]; apply (Hkeys k' c Hkc).
  - split; intros H.
    + rewrite H in Hsum; simpl in Hsum; destruct (rows f); [reflexivity|discriminate].
    + rewrite H in Hsum; destruct (value_counts String.eqb (fun _ => false) labels) as [|[k c] t] eqn:E;
        [reflexivity|].
      specialize (Hkeys k c (or_introl eq_refl)); simpl in Hsum; lia.
Qed.

(** ** [.head(n)] of [value_counts()] *)

Lemma SS_app_split {A} (R : A -> A -> Prop) (l1 l2 : list A) :
  StronglySorted R (l1 ++ l2) -> forall x y, In x l1 -> In y l2 -> R x y.
Proof.
  induction l1 as [|a l1 IH]; simpl; [tauto|].
  intros HS; inversion HS as [|b l HS' HF]; subst.
  intros x y [<-|Hx] Hy.
  - rewrite Forall_forall in HF; apply HF, in_or_app; right; exact Hy.
  - apply IH; auto.
Qed.

Lemma In_firstn_In {A} (n : nat) (x : A) (l : list A) : In x (firstn n l) -> In x l.
Proof. intros H; rewrite <- (firstn_skipn n l); apply in_or_app; left; exact H. Qed.

Lemma top_n_keys (n : nat) (vals : list value) (v : value) (c : nat) :
  In (v, c) (top_n_frequency n vals) -> py_isna v = false /\ In v vals.
Proof.
  unfold top_n_frequency, value_counts; intros H; apply In_firstn_In in H.
  apply (Permutation_in _ (sort_desc_perm _)) in H.
  unfold tally in H; apply in_map_iff in H as [x [Hx Hin]]; injection Hx as -> _.
  apply uniq_first_incl, filter_In in Hin as [Hin Hna].
  destruct (py_isna v); [discriminate|auto].
Qed.

(** Top-[n] selection on string values: the table holds [n] entries, or
    fewer when there are fewer distinct strings, and a string left out of
    the table occurs no more often than any string kept in it. *)
Theorem top_n_selection (vals : list string) (n : nat) :
  let t := top_n_frequency n (map VStr vals) in
  List.length t = Nat.min n (List.length (uniq_first String.eqb vals)) /\
  (forall v c s, In (v, c) t -> In s vals -> ~ In (VStr s) (map fst t) ->
     (count_occ string_dec vals s <= c)%nat).
Proof.
  intros t; unfold t, top_n_frequency; rewrite value_counts_VStr.
  set (full := value_counts String.eqb (fun _ => false) vals).
  destruct (value_counts_spec String.eqb String.eqb_eq vals) as [_ [Hin [_ HS]]]; fold full in Hin, HS.
  split.
  - rewrite length_firstn, length_map; f_equal.
    unfold full, value_counts; rewrite filter_all_true, (Permutation_length (sort_desc_perm _)).
    unfold tally; apply length_map.
  - intros v c s Hvc Hs Hnot.
    rewrite firstn_map in Hvc, Hnot; apply in_map_iff in Hvc as [[s' c'] [Hk Hs']].
    unfold map_key in Hk; simpl in Hk; injection Hk as _ <-.
    pose proof (Hin s Hs) as Hfull; rewrite <- (firstn_skipn n full) in Hfull.
    apply in_app_or in Hfull as [Hf|Hf].
    + exfalso; apply Hnot; rewrite map_map; apply (in_map (fun p => fst (map_key VStr p))) in Hf; exact Hf.
    + rewrite <- (firstn_skipn n full) in HS.
      pose proof (SS_app_split _ _ _ HS _ _ Hs' Hf) as Hr; unfold rank_before in Hr; simpl in Hr.
      rewrite <- count_eq_count_occ; lia.
Qed.

(** The drug, reaction and country tables never list a missing value ([None]
    or NaN) as a key, although the extractors pass such values through; every
    key is an extracted value, and each table holds at most ten entries. *)
Theorem tables_skip_missing :
  (forall f tbl, product_counts f = Some tbl ->
     (List.length tbl <= 10)%nat /\
     forall v c, In (v, c) tbl ->
       py_isna v = false /\ In v (flat_map get_medicinal_products (patients f))) /\
  (forall f tbl, reaction_counts f = Some tbl ->
     (List.length tbl <= 10)%nat /\
     forall v c, In (v, c) tbl ->
       py_isna v = false /\ In v (flat_map get_reactions (patients f))) /\
  (forall f tbl, country_counts f = Ok tbl ->
     (List.length tbl <= 10)%nat /\
     forall v c, In (v, c) tbl ->
       py_isna v = false /\ exists r, In r (rows f) /\ get_country (cell "primarysource" r) = v).
Proof.
  split; [|split].
  - intros f tbl H; unfold product_counts in H; destruct (has_col "patient" f); [|discriminate].
    injection H as <-; split; [apply firstn_le_length|intros v c Hvc; eapply top_n_keys; exact Hvc].
  - intros f tbl H; unfold reaction_counts in H; destruct (has_col "patient" f); [|discriminate].
    injection H as <-; split; [apply firstn_le_length|intros v c Hvc; eapply top_n_keys; exact Hvc].
  - intros f tbl H; unfold country_counts, column in H; destruct (has_col "primarysource" f); [|discriminate].
    simpl in H; injection H as <-; split; [apply firstn_le_length|].
    intros v c Hvc; apply top_n_keys in Hvc as [Hna Hv]; split; [exact Hna|].
    rewrite map_map in Hv; apply in_map_iff in Hv as [r [Hr Hin]]; exists r; auto.
Qed.

(** ** The monthly series *)

Lemma month_count_eq (ds : list date) (k : Z) :
  month_count ds k = count_eq Z.eqb k (map month_index ds).
Proof.
  unfold month_count, count_eq; rewrite filter_map_comm, length_map; f_equal.
  apply filter_ext; intros x; apply Z.eqb_sym.
Qed.

Lemma zrange_NoDup (lo hi : Z) : NoDup (zrange lo hi).
Proof. unfold zrange; apply NoDup_map_inj; [intros; lia|apply seq_NoDup]. Qed.

Lemma seq_sorted (s n : nat) : StronglySorted (fun i j => (i < j)%nat) (seq s n).
Proof.
  revert s; induction n as [|n IH]; intros s; simpl; constructor; [apply IH|].
  apply Forall_forall; intros j Hj; apply in_seq in Hj; lia.
Qed.

Lemma zrange_sorted (lo hi : Z) : StronglySorted Z.lt (zrange lo hi).
Proof. unfold zrange; apply (SS_map (fun i j => (i < j)%nat)); [intros; lia|apply seq_sorted]. Qed.

Lemma month_index_of_end (k : Z) : month_index (month_end k) = k.
Proof.
  unfold month_index, month_end; simpl.
  pose proof (Z.div_mod k 12 ltac:(lia)); lia.
Qed.

Lemma month_end_lt (k k' : Z) :
  (k < k')%Z -> date_leb (month_end k) (month_end k') = true /\ month_end k <> month_end k'.
Proof.
  intros Hk; split.
  - unfold date_leb, month_end; simpl.
    zbool; try reflexivity;
      pose proof (Z.div_mod k 12 ltac:(lia)); pose proof (Z.mod_pos_bound k 12 ltac:(lia));
      pose proof (Z.div_mod k' 12 ltac:(lia)); pose proof (Z.mod_pos_bound k' 12 ltac:(lia)); lia.
  - intros He; apply (f_equal month_index) in He; rewrite !month_index_of_end in He; lia.
Qed.

(** Every dated row lands in exactly one bucket. *)
Lemma bucket_total (ds : list date) :
  list_sum (map snd (bucket_by_month ds)) = List.length ds.
Proof.
  destruct ds as [|d r]; [reflexivity|]; unfold bucket_by_month; rewrite map_map; simpl snd.
  rewrite <- (length_map month_index (d :: r)).
  erewrite map_ext by (intros k; apply month_count_eq).
  apply count_cover; [apply Z.eqb_eq|apply zrange_NoDup|].
  destruct (fold_min_bounds (map month_index r) (month_index d)) as [H1 _].
  destruct (fold_max_bounds (map month_index r) (month_index d)) as [H2 _].
  intros y Hy; apply In_zrange; split; [apply H1|apply H2]; exact Hy.
Qed.

(** The monthly series is well formed: its counts add up to the number of
    dates it is built from, its labels are strictly increasing dates, and
    each label is the last day of a calendar month. *)
Theorem bucket_by_month_well_formed (ds : list date) :
  list_sum (map snd (bucket_by_month ds)) = List.length ds /\
  StronglySorted (fun p q => date_leb (fst p) (fst q) = true /\ fst p <> fst q) (bucket_by_month ds) /\
  (forall e c, In (e, c) (bucket_by_month ds) ->
     (1 <= month e <= 12)%Z /\ day e = days_in_month (year e) (month e)).
Proof.
  split; [apply bucket_total|].
  destruct ds as [|d r]; [split; [constructor|simpl; tauto]|].
  unfold bucket_by_month; split.
  - eapply SS_map; [|apply zrange_sorted]; intros k k' Hk; apply month_end_lt, Hk.
  - intros e c H; apply in_map_iff in H as [k [Hk _]]; injection Hk as <- _.
    unfold month_end; simpl; split; [pose proof (Z.mod_pos_bound k 12 ltac:(lia)); lia|reflexivity].
Qed.

(** ** The date-range filter *)

Lemma date_leb_max_l (a c x : date) :
  date_leb (date_max a c) x = date_leb a x && date_leb c x.
Proof.
  unfold date_max; destruct (date_leb a c) eqn:E.
  - destruct (date_leb c x) eqn:E2; [rewrite (date_leb_trans a c x E E2); reflexivity|].
    rewrite andb_false_r; reflexivity.
  - pose proof (date_leb_total _ _ E) as E'.
    destruct (date_leb a x) eqn:E2; simpl; [symmetry; apply (date_leb_trans c a x); auto|reflexivity].
Qed.

Lemma date_leb_min_r (x b d : date) :
  date_leb x (date_min b d) = date_leb x b && date_leb x d.
Proof.
  unfold date_min; destruct (date_leb b d) eqn:E.
  - destruct (date_leb x b) eqn:E2; simpl; [symmetry; apply (date_leb_trans x b d); auto|reflexivity].
  - pose proof (date_leb_total _ _ E) as E'.
    destruct (date_leb x d) eqn:E2; [rewrite (date_leb_trans x d b E2 E'); reflexivity|].
    rewrite andb_false_r; reflexivity.
Qed.

Lemma filter_filter_andb {A} (p q : A -> bool) (l : list A) :
  filter p (filter q l) = filter (fun x => q x && p x) l.
Proof.
  induction l as [|a r IH]; simpl; [reflexivity|].
  destruct (q a); simpl; [destruct (p a); simpl|]; rewrite IH; reflexivity.
Qed.

(** Filtering by [[a, b]] and then by [[c, d]] is filtering once by their
    intersection [[max a c, min b d]]; a range whose start is after its end
    keeps no row. *)
Theorem filter_by_range_compose (to_datetime : value -> option date) (f : frame) (a b c d : date) :
  filter_by_range to_datetime (filter_by_range to_datetime f a b) c d
    = filter_by_range to_datetime f (date_max a c) (date_min b d) /\
  (date_leb a b = false -> rows (filter_by_range to_datetime f a b) = []).
Proof.
  split.
  - unfold filter_by_range; simpl; f_equal; rewrite filter_filter_andb.
    apply filter_ext; intros r; unfold in_range.
    destruct (receipt_date to_datetime r) as [x|]; [|reflexivity].
    rewrite date_leb_max_l, date_leb_min_r.
    destruct (date_leb a x), (date_leb x b), (date_leb c x), (date_leb x d); reflexivity.
  - intros Hab; simpl; apply filter_nil_forall; intros r _; unfold in_range.
    destruct (receipt_date to_datetime r) as [x|]; [|reflexivity].
    destruct (date_leb a x) eqn:E1, (date_leb x b) eqn:E2; try reflexivity.
    rewrite (date_leb_trans a x b E1 E2) in Hab; discriminate.
Qed.

(** ** The working frame and the dashboards *)

Lemma length_row_dates (to_datetime : value -> option date) (rs : list record) :
  List.length (row_dates to_datetime rs) = List.length (filter (is_dated to_datetime) rs).
Proof.
  induction rs as [|r rs IH]; simpl; [reflexivity|].
  unfold is_dated at 1; destruct (receipt_date to_datetime r); simpl; rewrite IH; reflexivity.
Qed.

Lemma length_filter_le {A} (p : A -> bool) (l : list A) : (List.length (filter p l) <= List.length l)%nat.
Proof. induction l as [|a r IH]; simpl; [lia|]; destruct (p a); simpl; lia. Qed.

Lemma fold_left_const {A} (g : A -> A -> A) (l : list A) (d : A) :
  (forall y, In y l -> y = d) -> g d d = d -> fold_left g l d = d.
Proof.
  intros Hl Hg; induction l as [|a r IH]; simpl; [reflexivity|].
  rewrite (Hl a (or_introl eq_refl)), Hg; apply IH; intros y Hy; apply Hl; right; exact Hy.
Qed.

Lemma has_col_with_receipt_date (k : string) (f : frame) :
  has_col k (with_receipt_date f) = has_col k f || String.eqb k "receipt_date".
Proof. unfold has_col, with_receipt_date; simpl; rewrite existsb_app; simpl; rewrite orb_false_r; reflexivity. Qed.

Lemma has_col_with_receipt_date_other (k : string) (f : frame) :
  k <> "receipt_date" -> has_col k (with_receipt_date f) = has_col k f.
Proof.
  intros Hk; rewrite has_col_with_receipt_date; apply String.eqb_neq in Hk; rewrite Hk, orb_false_r; reflexivity.
Qed.

Lemma working_frame_001_default (to_datetime : value -> option date) (df : frame) :
  has_col "receiptdate" df = true ->
  working_frame_001 to_datetime df None = drop_undated to_datetime (with_receipt_date df).
Proof.
  intros Hc; unfold working_frame_001; rewrite Hc.
  set (df1 := drop_undated to_datetime (with_receipt_date df)).
  destruct (min_max (row_dates to_datetime (rows df1))) as [[a b]|] eqn:E; [|reflexivity].
  unfold slider; destruct (date_eqb a b); [reflexivity|].
  apply filter_full_range; [apply drop_undated_dated|exact E].
Qed.

Lemma working_frame_001_dated (to_datetime : value -> option date) (df : frame) (sel : option (date * date)) :
  has_col "receiptdate" df = true ->
  forall r, In r (rows (working_frame_001 to_datetime df sel)) ->
            In r (rows df) /\ is_dated to_datetime r = true.
Proof.
  intros Hc r Hr; unfold working_frame_001 in Hr; rewrite Hc in Hr.
  set (df1 := drop_undated to_datetime (with_receipt_date df)) in Hr.
  assert (Hdf1 : In r (rows df1) -> In r (rows df) /\ is_dated to_datetime r = true)
    by (intros H; apply in_drop_undated in H; exact H).
  destruct (min_max (row_dates to_datetime (rows df1))) as [[mn mx]|]; [|auto].
  destruct (slider mn mx sel) as [[a b]|]; [|auto].
  apply Hdf1; eapply in_filter_by_range; exact Hr.
Qed.

Lemma working_frame_001_length (to_datetime : value -> option date) (df : frame) (sel : option (date * date)) :
  (List.length (rows (working_frame_001 to_datetime df sel)) <= List.length (rows df))%nat.
Proof.
  unfold working_frame_001; destruct (has_col "receiptdate" df); [|lia].
  set (df1 := drop_undated to_datetime (with_receipt_date df)).
  assert (H1 : (List.length (rows df1) <= List.length (rows df))%nat) by apply length_filter_le.
  destruct (min_max (row_dates to_datetime (rows df1))) as [[mn mx]|]; [|exact H1].
  destruct (slider mn mx sel) as [[a b]|]; [|exact H1].
  simpl; etransitivity; [apply length_filter_le|exact H1].
Qed.

Lemma time_series_app_default (to_datetime : value -> option date) (df : frame) :
  has_col "receiptdate" df = true -> row_dates to_datetime (rows df) <> [] ->
  time_series_app to_datetime df None = Some (bucket_by_month (row_dates to_datetime (rows df))).
Proof.
  intros Hc Hne; unfold time_series_app; rewrite Hc.
  set (df1 := drop_undated to_datetime (with_receipt_date df)).
  assert (Hdates : row_dates to_datetime (rows df1) = row_dates to_datetime (rows df))
    by (unfold df1; simpl; apply row_dates_dated).
  destruct (row_dates to_datetime (rows df1)) as [|d ds] eqn:Ed; [congruence|].
  destruct (min_max_cons d ds) as [a [b Hab]]; rewrite Hab.
  assert (Hfull : filter_by_range to_datetime df1 a b = df1).
  { apply filter_full_range; [apply drop_undated_dated|rewrite Ed; exact Hab]. }
  destruct (slider a b None) as [[a' b']|] eqn:Es.
  1: unfold slider in Es; destruct (date_eqb a b); [discriminate|injection Es as <- <-].
  all: cbv beta iota; rewrite Hfull; destruct (rows df1) as [|r0 rs0] eqn:Er;
    [simpl in Ed; discriminate|rewrite Ed, Hdates; reflexivity].
Qed.

(** When every parsed receipt date is the same day [d], Streamlit refuses
    the slider (its bounds coincide) and the fallback range keeps every
    dated row: [app 001.py] works on all dated rows whatever the selection,
    and the series of [app.py] is one bucket, the end of [d]'s month,
    counting every dated row. *)
Theorem single_receipt_date_fallback (to_datetime : value -> option date) (df : frame) (d : date)
    (sel : option (date * date))
    (Hcol : has_col "receiptdate" df = true)
    (Hne : row_dates to_datetime (rows df) <> [])
    (Hsame : forall x, In x (row_dates to_datetime (rows df)) -> x = d) :
  working_frame_001 to_datetime df sel = drop_undated to_datetime (with_receipt_date df) /\
  time_series_app to_datetime df sel
    = Some [(month_end (month_index d), List.length (filter (is_dated to_datetime) (rows df)))].
Proof.
  set (df1 := drop_undated to_datetime (with_receipt_date df)).
  assert (Hdates : row_dates to_datetime (rows df1) = row_dates to_datetime (rows df))
    by (unfold df1; simpl; apply row_dates_dated).
  rewrite <- length_row_dates.
  destruct (row_dates to_datetime (rows df)) as [|x xs] eqn:E; [congruence|].
  assert (Hx : x = d) by (apply Hsame; left; reflexivity); subst x.
  assert (Hxs : forall y, In y xs -> y = d) by (intros y Hy; apply Hsame; right; exact Hy).
  assert (Hmm : min_max (row_dates to_datetime (rows df1)) = Some (d, d)).
  { rewrite Hdates; simpl; rewrite !fold_left_const; auto;
      unfold date_min, date_max; rewrite date_leb_refl; reflexivity. }
  assert (Hsl : forall s, slider d d s = None)
    by (intros s; unfold slider, date_eqb; rewrite date_leb_refl; reflexivity).
  split.
  - unfold working_frame_001; rewrite Hcol; fold df1; rewrite Hmm, Hsl; reflexivity.
  - unfold time_series_app; rewrite Hcol; fold df1; rewrite Hmm, Hsl; cbv beta iota.
    rewrite (filter_full_range to_datetime df1 d d (drop_undated_dated _ _) Hmm).
    destruct (rows df1) as [|r0 rs0] eqn:Er; [simpl in Hdates; discriminate|].
    rewrite Hdates; f_equal; unfold bucket_by_month.
    rewrite !(fold_left_const _ (map month_index xs) (month_index d)); [| |apply Z.max_id| |apply Z.min_id];
      try (intros y Hy; apply in_map_iff in Hy as [z [<- Hz]]; rewrite (Hxs z Hz); reflexivity).
    unfold zrange; replace (Z.to_nat (month_index d - month_index d + 1)) with 1%nat by lia.
    simpl; rewrite Z.add_0_r; f_equal; f_equal.
    unfold month_count; rewrite filter_id_forall; [reflexivity|].
    intros y [<-|Hy]; [apply Z.eqb_refl|rewrite (Hxs y Hy); apply Z.eqb_refl].
Qed.


(** When every fetched record carries a valid receipt date and the slider is
    untouched, the two scripts render the same dashboard. *)
Theorem scripts_agree_all_dated (float_of_str : string -> option float)
    (to_datetime : value -> option date) (np_sum : list float -> float)
    (data : list record)
    (Hcol : has_col "receiptdate" (frame_of data) = true)
    (Hd : forallb (is_dated to_datetime) data = true) :
  dashboard_001 float_of_str to_datetime np_sum data None
    = dashboard_app float_of_str to_datetime np_sum data None.
Proof.
  destruct data as [|r0 rs0]; [reflexivity|].
  set (df := frame_of (r0 :: rs0)) in *.
  assert (Hw : working_frame_001 to_datetime df None = with_receipt_date df).
  { rewrite (working_frame_001_default _ _ Hcol); unfold drop_undated, with_receipt_date; cbn [rows cols].
    replace (rows df) with (r0 :: rs0) by reflexivity.
    rewrite filter_id_forall; [reflexivity|apply forallb_forall, Hd]. }
  unfold dashboard_001, dashboard_app; cbv beta iota zeta; fold df; rewrite Hw.
  change (rows (with_receipt_date df)) with (r0 :: rs0); cbv iota.
  assert (Hpan : panels_001 float_of_str to_datetime np_sum (with_receipt_date df)
                 = panels_app float_of_str to_datetime np_sum df None).
  { unfold panels_001, panels_app; cbv beta zeta.
    assert (Hg : gender_counts (with_receipt_date df) = gender_counts df)
      by (unfold gender_counts; rewrite has_col_with_receipt_date_other by discriminate; reflexivity).
    assert (Hc : country_counts (with_receipt_date df) = country_counts df)
      by (unfold country_counts, column; rewrite has_col_with_receipt_date_other by discriminate; reflexivity).
    assert (Hp : product_counts (with_receipt_date df) = product_counts df)
      by (unfold product_counts; rewrite has_col_with_receipt_date_other by discriminate; reflexivity).
    assert (Hr : reaction_counts (with_receipt_date df) = reaction_counts df)
      by (unfold reaction_counts; rewrite has_col_with_receipt_date_other by discriminate; reflexivity).
    assert (Ha : age_panel float_of_str np_sum (with_receipt_date df) = age_panel float_of_str np_sum df)
      by (unfold age_panel; rewrite has_col_with_receipt_date_other by discriminate; reflexivity).
    assert (Hne : row_dates to_datetime (rows df) <> []).
    { replace (rows df) with (r0 :: rs0) by reflexivity.
      simpl in Hd; unfold is_dated at 1 in Hd; unfold row_dates; simpl.
      destruct (receipt_date to_datetime r0); [simpl; discriminate|discriminate]. }
    rewrite Hg, Hc, Hp, Hr, Ha, (time_series_app_default _ _ Hcol Hne).
    rewrite has_col_with_receipt_date, String.eqb_refl, orb_true_r.
    destruct (country_counts df); [|reflexivity]; simpl.
    destruct (age_panel float_of_str np_sum df); reflexivity. }
  rewrite Hpan; reflexivity.
Qed.

(** In [app 001.py] the monthly series counts every event of the working
    frame: its counts add up to the "total events" metric. *)
Theorem series_total_matches_metric (float_of_str : string -> option float)
    (to_datetime : value -> option date) (np_sum : list float -> float)
    (data : list record) (sel : option (date * date)) (p : panels) (ts : list (date * nat))
    (Hcol : has_col "receiptdate" (frame_of data) = true)
    (Hp : dashboard_001 float_of_str to_datetime np_sum data sel = Ok (Shown p))
    (Hts : series p = Some ts) :
  list_sum (map snd ts) = total_events p.
Proof.
  destruct data as [|r0 rs0]; [discriminate|].
  unfold dashboard_001 in Hp; cbv beta iota zeta in Hp.
  set (wf := working_frame_001 to_datetime (frame_of (r0 :: rs0)) sel) in Hp.
  assert (Hdt : forall r, In r (rows wf) -> is_dated to_datetime r = true)
    by (intros r Hr; apply (working_frame_001_dated _ _ _ Hcol r Hr)).
  destruct (rows wf) as [|r1 rs1] eqn:Er; [discriminate|].
  destruct (panels_001 float_of_str to_datetime np_sum wf) as [q|e] eqn:Eq; simpl in Hp; [|discriminate].
  injection Hp as <-; unfold panels_001 in Eq; cbv beta zeta in Eq.
  destruct (country_counts wf); simpl in Eq; [|discriminate].
  destruct (age_panel float_of_str np_sum wf); simpl in Eq; [|discriminate].
  injection Eq as <-; simpl in Hts |- *.
  destruct (has_col "receipt_date" wf && _); [|discriminate]; injection Hts as <-.
  rewrite bucket_total, length_row_dates, filter_id_forall; [reflexivity|rewrite Er; exact Hdt].
Qed.

(** The "total events" metric: in [app 001.py] it counts the rows of the
    working frame, at least one and at most the number of fetched records;
    in [app.py] it is the number of fetched records. *)
Theorem total_events_bounds (float_of_str : string -> option float)
    (to_datetime : value -> option date) (np_sum : list float -> float)
    (data : list record) (sel : option (date * date)) (p : panels) :
  (dashboard_001 float_of_str to_datetime np_sum data sel = Ok (Shown p) ->
   (1 <= total_events p <= List.length data)%nat) /\
  (dashboard_app float_of_str to_datetime np_sum data sel = Ok (Shown p) ->
   total_events p = List.length data).
Proof.
  split.
  - intros Hp; destruct data as [|r0 rs0]; [discriminate|].
    unfold dashboard_001 in Hp; cbv beta iota zeta in Hp.
    pose proof (working_frame_001_length to_datetime (frame_of (r0 :: rs0)) sel) as Hl.
    set (wf := working_frame_001 to_datetime (frame_of (r0 :: rs0)) sel) in Hp, Hl.
    destruct (rows wf) as [|r1 rs1] eqn:Er; [discriminate|].
    destruct (panels_001 float_of_str to_datetime np_sum wf) as [q|e] eqn:Eq; simpl in Hp; [|discriminate].
    injection Hp as <-; unfold panels_001 in Eq; cbv beta zeta in Eq.
    destruct (country_counts wf); simpl in Eq; [|discriminate].
    destruct (age_panel float_of_str np_sum wf); simpl in Eq; [|discriminate].
    injection Eq as <-; simpl; rewrite Er in *; simpl in Hl |- *; lia.
  - intros Hp; destruct data as [|r0 rs0]; [discriminate|].
    unfold dashboard_app in Hp; cbv beta iota in Hp.
    destruct (panels_app float_of_str to_datetime np_sum (frame_of (r0 :: rs0)) sel) as [q|e] eqn:Eq;
      simpl in Hp; [|discriminate].
    injection Hp as <-; unfold panels_app in Eq.
    destruct (country_counts _); simpl in Eq; [|discriminate].
    destruct (age_panel _ _ _); simpl in Eq; [|discriminate].
    injection Eq as <-; reflexivity.
Qed.

(** ** [pd.DataFrame(data)] *)

Lemma add_key_step (acc : list string) (kv : string * value) (k : string) :
  let acc' := if existsb (String.eqb (fst kv)) acc then acc else app acc [fst kv] in
  (In k acc' <-> In k acc \/ k = fst kv) /\ (NoDup acc -> NoDup acc').
Proof.
  intros acc'; unfold acc'; destruct (existsb (String.eqb (fst kv)) acc) eqn:E.
  - apply existsb_exists in E as [x [Hx Hex]]; apply String.eqb_eq in Hex; subst x.
    split; [split; [tauto|intros [H| ->]; auto]|auto].
  - split; [rewrite in_app_iff; simpl; split; intros [H|H]; intuition|].
    intros HN; eapply Permutation_NoDup; [apply Permutation_cons_append|].
    constructor; [|exact HN].
    intros Hin; assert (existsb (String.eqb (fst kv)) acc = true)
      by (apply existsb_exists; exists (fst kv); split; [exact Hin|apply String.eqb_refl]).
    congruence.
Qed.

Lemma add_keys_spec (r : record) (acc : list string) :
  (forall k, In k (add_keys acc r) <-> In k acc \/ exists v, In (k, v) r) /\
  (NoDup acc -> NoDup (add_keys acc r)).
Proof.
  unfold add_keys; revert acc; induction r as [|kv r IH]; intros acc; simpl.
  - split; [intros k; split; [tauto|intros [H|[v []]]; exact H]|auto].
  - destruct (IH (if existsb (String.eqb (fst kv)) acc then acc else app acc [fst kv])) as [H1 H2].
    split.
    + intros k; rewrite H1; destruct (add_key_step acc kv k) as [Hs _]; simpl in Hs; rewrite Hs.
      split.
      * intros [[H| ->]|[v Hv]]; [left; exact H|right; exists (snd kv); left; destruct kv; reflexivity|].
        right; exists v; right; exact Hv.
      * intros [H|[v [Hv|Hv]]]; [left; left; exact H|left; right; subst kv; reflexivity|].
        right; exists v; exact Hv.
    + intros HN; apply H2; destruct (add_key_step acc kv "") as [_ Hs]; apply Hs, HN.
Qed.

(** The frame built from the fetched records has one column per key found
    in some record, each once: a panel's [k in df.columns] test holds
    exactly when some record carries the key [k]. *)
Theorem frame_of_columns (data : list record) :
  (forall k, has_col k (frame_of data) = true <-> exists r v, In r data /\ In (k, v) r) /\
  NoDup (cols (frame_of data)).
Proof.
  assert (H : forall acc, (forall k, In k (fold_left add_keys data acc) <->
                            In k acc \/ exists r v, In r data /\ In (k, v) r) /\
                          (NoDup acc -> NoDup (fold_left add_keys data acc))).
  { induction data as [|r data IH]; intros acc; simpl.
    - split; [intros k; split; [tauto|intros [H|[r [v [[] _]]]]; exact H]|auto].
    - destruct (IH (add_keys acc r)) as [H1 H2]; destruct (add_keys_spec r acc) as [H3 H4].
      split; [|auto].
      intros k; rewrite H1, H3; split.
      + intros [[H|[v Hv]]|[r' [v [Hr Hv]]]]; [left; exact H|right; exists r, v; auto|].
        right; exists r', v; auto.
      + intros [H|[r' [v [[<-|Hr] Hv]]]]; [left; left; exact H|left; right; exists v; exact Hv|].
        right; exists r', v; auto. }
  destruct (H []) as [H1 H2]; split.
  - intros k; unfold has_col, frame_of; simpl; rewrite existsb_exists; split.
    + intros [x [Hx Hk]]; apply String.eqb_eq in Hk; subst x; apply H1 in Hx as [[]|Hx]; exact Hx.
    + intros Hex; exists k; split; [apply H1; right; exact Hex|apply String.eqb_refl].
  - apply H2; constructor.
Qed.

(** ** Age normalisation *)

Lemma float_of_int_err (z : Z) (e : exn) : float_of_int z = Err e -> e = OverflowError.
Proof. unfold float_of_int; destruct (binary_normalize _ _ _ _ _); congruence. Qed.

(** [get_normalized_age] raises exactly when the record holds both fields
    and its age is a Python int too large for a float; the exception is then
    [OverflowError], whatever the unit. Every other input gives a number or
    absent. *)
Theorem get_normalized_age_error (float_of_str : string -> option float) (p : value) (e : exn) :
  get_normalized_age float_of_str p = Err e <->
  e = OverflowError /\
  exists d z u, p = VDict d /\ lookup "patientonsetage" d = Some (VInt z) /\
                lookup "patientonsetageunit" d = Some u /\ float_of_int z = Err OverflowError.
Proof.
  split.
  - unfold get_normalized_age; destruct p as [| | | | | |d]; cbv beta iota; try discriminate.
    destruct (lookup "patientonsetage" d) as [a|] eqn:Ea; [|discriminate].
    destruct (lookup "patientonsetageunit" d) as [u|] eqn:Eu; [|discriminate].
    destruct (py_float float_of_str a) as [age|e0] eqn:Ep.
    + destruct (unit_key u) as [s|]; [destruct (age_multiplier s)|]; discriminate.
    + intros H; destruct a; simpl in Ep; try discriminate;
        try (injection Ep as <-; discriminate).
      * pose proof (float_of_int_err _ _ Ep); subst e0; injection H as <-.
        split; [reflexivity|exists d, z, u; auto].
      * destruct (float_of_str s); [discriminate|injection Ep as <-; discriminate].
  - intros [-> [d [z [u [-> [Ea [Eu Ez]]]]]]]; simpl; rewrite Ea, Eu; simpl; rewrite Ez; reflexivity.
Qed.

Lemma digit_char (d : Z) : (0 <= d < 10)%Z -> digit_of (ascii_of_nat (48 + Z.to_nat d)) = Some d.
Proof.
  intros H; assert (d = 0 \/ d = 1 \/ d = 2 \/ d = 3 \/ d = 4 \/ d = 5 \/ d = 6 \/ d = 7 \/ d = 8 \/ d = 9)%Z
    as Hd by lia.
  repeat destruct Hd as [->|Hd]; try reflexivity; subst; reflexivity.
Qed.

(** [encodes s v]: reading the digits [s] after [a] gives [a] shifted by
    [s]'s digits plus [v]. *)
Definition encodes (s : string) (v : Z) : Prop :=
  forall a, digits_value s a = Some (a * 10 ^ Z.of_nat (String.length s) + v)%Z.

Lemma dec_digits_S (f : nat) (n : Z) (acc : string) :
  dec_digits (S f) n acc =
  (if (n <? 10)%Z then String (ascii_of_nat (48 + Z.to_nat (n mod 10))) acc
   else dec_digits f (n / 10) (String (ascii_of_nat (48 + Z.to_nat (n mod 10))) acc)).
Proof. reflexivity. Qed.

Lemma digits_value_cons (c : ascii) (s : string) (a : Z) :
  digits_value (String c s) a = match digit_of c with
                                | Some d => digits_value s (a * 10 + d)%Z
                                | None => None
                                end.
Proof. reflexivity. Qed.

Lemma dec_digits_encodes (fuel : nat) (n : Z) (acc : string) (v : Z) :
  (0 <= n < 10 ^ Z.of_nat fuel)%Z -> encodes acc v ->
  encodes (dec_digits fuel n acc) (n * 10 ^ Z.of_nat (String.length acc) + v).
Proof.
  revert n acc v; induction fuel as [|f IH]; intros n acc v Hn Hacc.
  - change (10 ^ Z.of_nat 0)%Z with 1%Z in Hn; replace n with 0%Z by lia.
    change (dec_digits 0 0 acc) with acc; rewrite Z.mul_0_l, Z.add_0_l; exact Hacc.
  - rewrite dec_digits_S.
    pose proof (Z.mod_pos_bound n 10 ltac:(lia)) as Hm.
    set (acc' := String (ascii_of_nat (48 + Z.to_nat (n mod 10))) acc).
    assert (Hlen : String.length acc' = S (String.length acc)) by reflexivity.
    assert (Hacc' : encodes acc' (n mod 10 * 10 ^ Z.of_nat (String.length acc) + v)).
    { intros a; unfold acc'; rewrite digits_value_cons, digit_char by lia; rewrite Hacc; f_equal.
      change (String.length (String (ascii_of_nat (48 + Z.to_nat (n mod 10))) acc))
        with (S (String.length acc)).
      rewrite Nat2Z.inj_succ, Z.pow_succ_r by lia; ring. }
    destruct (n <? 10)%Z eqn:E.
    + apply Z.ltb_lt in E; rewrite Z.mod_small in Hacc' by lia; exact Hacc'.
    + apply Z.ltb_ge in E.
      assert (Hq : (0 <= n / 10 < 10 ^ Z.of_nat f)%Z).
      { split; [apply Z.div_pos; lia|apply Z.div_lt_upper_bound; [lia|]].
        rewrite Nat2Z.inj_succ, Z.pow_succ_r in Hn by lia; lia. }
      pose proof (IH (n / 10)%Z acc' _ Hq Hacc') as H.
      replace (n * 10 ^ Z.of_nat (String.length acc) + v)%Z
        with (n / 10 * 10 ^ Z.of_nat (String.length acc') + (n mod 10 * 10 ^ Z.of_nat (String.length acc) + v))%Z;
        [exact H|].
      rewrite Hlen, Nat2Z.inj_succ, Z.pow_succ_r by lia.
      rewrite (Z.div_mod n 10%Z) at 3 by lia; ring.
Qed.

(** [str(z)] of a non-negative int reads back as [z]. *)
Lemma int_to_str_digits (z : Z) : (0 <= z)%Z -> digits_value (int_to_str z) 0 = Some z.
Proof.
  intros Hz; unfold int_to_str; destruct (z <? 0)%Z eqn:E; [apply Z.ltb_lt in E; lia|].
  assert (Hf : (0 <= z < 10 ^ Z.of_nat (S (Z.to_nat (Z.log2 z))))%Z).
  { split; [lia|]; rewrite Nat2Z.inj_succ, Z2Nat.id by apply Z.log2_nonneg.
    destruct (Z.eq_dec z 0) as [->|Hz0]; [simpl; lia|].
    destruct (Z.log2_spec z ltac:(lia)) as [_ H2]; rewrite <- Z.add_1_r.
    eapply Z.lt_le_trans; [exact H2|apply Z.pow_le_mono_l; pose proof (Z.log2_nonneg z); lia]. }
  assert (He : encodes "" 0) by (intros a; simpl; f_equal; ring).
  rewrite (dec_digits_encodes _ _ _ _ Hf He 0%Z); f_equal; rewrite Z.mul_0_l;
    change (Z.of_nat (String.length "")) with 0%Z; ring.
Qed.

(** A unit code sent as a JSON int goes through [str()]: it is found in
    [AGE_UNIT_MAP] exactly when it is one of the ints 800 to 804. *)
Theorem int_unit_codes (z : Z) :
  unit_key (VInt z) = Some (int_to_str z) /\
  (age_multiplier (int_to_str z) <> None <-> (800 <= z <= 804)%Z).
Proof.
  split; [reflexivity|split].
  - destruct (age_multiplier (int_to_str z)) as [m|] eqn:E; [intros _|congruence].
    unfold age_multiplier in E; destruct (find _ AGE_UNIT_MAP) as [[k m']|] eqn:F; [|discriminate].
    apply find_some in F as [Hin Hk]; simpl in Hk; apply String.eqb_eq in Hk; subst k.
    destruct (Z.ltb_spec z 0) as [Hneg|Hpos].
    + exfalso; unfold int_to_str in Hin; apply Z.ltb_lt in Hneg; rewrite Hneg in Hin.
      simpl in Hin; destruct Hin as [H|[H|[H|[H|[H|[]]]]]]; discriminate.
    + pose proof (int_to_str_digits z Hpos) as Hd.
      simpl in Hin; destruct Hin as [H|[H|[H|[H|[H|[]]]]]]; injection H as H _;
        rewrite <- H in Hd; vm_compute in Hd; injection Hd as <-; lia.
  - intros Hz; assert (z = 800 \/ z = 801 \/ z = 802 \/ z = 803 \/ z = 804)%Z as H by lia.
    repeat destruct H as [->|H]; try (vm_compute; discriminate); subst; vm_compute; discriminate.
Qed.

(** ** Instances of the further properties *)

(** [gender_table_total] on two records of either sex. *)
Lemma gender_table_total_witness :
  let f := frame_of [[("receiptdate", VStr "20240105"); ("patient", VDict [("patientsex", VStr "1")])];
                     [("receiptdate", VStr "20240120"); ("patient", VDict [("patientsex", VStr "2")])]] in
  gender_counts f = Some [("Masculino", 1); ("Feminino", 1)] /\
  list_sum (map snd [("Masculino", 1); ("Feminino", 1)]) = List.length (rows f).
Proof.
  intros f.
  assert (H : gender_counts f = Some [("Masculino", 1); ("Feminino", 1)]) by (vm_compute; reflexivity).
  split; [exact H|exact (proj1 (gender_table_total f _ H))].
Defined.

(** [single_receipt_date_fallback] on two records of the same day and one
    whose date does not parse. *)
Lemma single_receipt_date_fallback_witness :
  let df := frame_of [[("receiptdate", VStr "20240105")]; [("receiptdate", VStr "20240105")];
                      [("receiptdate", VStr "2024-13-45")]] in
  has_col "receiptdate" df = true /\
  row_dates parse_yyyymmdd (rows df) <> [] /\
  time_series_app parse_yyyymmdd df None
    = Some [(month_end (month_index (mkDate 2024 1 5)),
             List.length (filter (is_dated parse_yyyymmdd) (rows df)))].
Proof.
  intros df.
  assert (Hcol : has_col "receiptdate" df = true) by (vm_compute; reflexivity).
  assert (Hne : row_dates parse_yyyymmdd (rows df) <> []) by (vm_compute; discriminate).
  assert (Hsame : forall x, In x (row_dates parse_yyyymmdd (rows df)) -> x = mkDate 2024 1 5).
  { intros x Hx.
    change (row_dates parse_yyyymmdd (rows df)) with [mkDate 2024 1 5; mkDate 2024 1 5] in Hx.
    destruct Hx as [<-|[<-|[]]]; reflexivity. }
  split; [exact Hcol|split; [exact Hne|]].
  exact (proj2 (single_receipt_date_fallback parse_yyyymmdd df (mkDate 2024 1 5) None Hcol Hne Hsame)).
Defined.


(** [scripts_agree_all_dated] on two dated records. *)
Lemma scripts_agree_all_dated_witness :
  let data : list record :=
    [[("receiptdate", VStr "20240105"); ("patient", VDict [("patientsex", VStr "1")]);
      ("primarysource", VDict [("reportercountry", VStr "US")])];
     [("receiptdate", VStr "20240220"); ("patient", VDict [("patientsex", VStr "2")]);
      ("primarysource", VDict [("reportercountry", VStr "FR")])]] in
  dashboard_001 float_of_digits parse_yyyymmdd sum_seq data None
    = dashboard_app float_of_digits parse_yyyymmdd sum_seq data None.
Proof.
  intros data.
  apply (scripts_agree_all_dated float_of_digits parse_yyyymmdd sum_seq data);
    vm_compute; reflexivity.
Defined.

(** [series_total_matches_metric] on two records of different months. *)
Lemma series_total_matches_metric_witness :
  let data : list record :=
    [[("receiptdate", VStr "20240105"); ("patient", VDict [("patientsex", VStr "1")]);
      ("primarysource", VDict [("reportercountry", VStr "US")])];
     [("receiptdate", VStr "20240220"); ("patient", VDict [("patientsex", VStr "2")]);
      ("primarysource", VDict [("reportercountry", VStr "FR")])]] in
  let p := match dashboard_001 float_of_digits parse_yyyymmdd sum_seq data None with
           | Ok (Shown p) => p
           | _ => mkPanels 0 None [] None None None None
           end in
  let ts := match series p with Some ts => ts | None => [] end in
  dashboard_001 float_of_digits parse_yyyymmdd sum_seq data None = Ok (Shown p) /\
  series p = Some ts /\
  list_sum (map snd ts) = total_events p.
Proof.
  intros data p ts.
  assert (Hp : dashboard_001 float_of_digits parse_yyyymmdd sum_seq data None = Ok (Shown p))
    by (vm_compute; reflexivity).
  assert (Hts : series p = Some ts) by (vm_compute; reflexivity).
  split; [exact Hp|split; [exact Hts|]].
  exact (series_total_matches_metric float_of_digits parse_yyyymmdd sum_seq data None p ts
           ltac:(vm_compute; reflexivity) Hp Hts).
Defined.

(** [total_events_bounds] on two dated records, read by both scripts. *)
Lemma total_events_bounds_witness :
  let data : list record :=
    [[("receiptdate", VStr "20240105"); ("patient", VDict [("patientsex", VStr "1")]);
      ("primarysource", VDict [("reportercountry", VStr "US")])];
     [("receiptdate", VStr "2024-13-45"); ("patient", VDict [("patientsex", VStr "2")]);
      ("primarysource", VDict [("reportercountry", VStr "FR")])]] in
  let p1 := match dashboard_001 float_of_digits parse_yyyymmdd sum_seq data None with
            | Ok (Shown p) => p
            | _ => mkPanels 0 None [] None None None None
            end in
  let p2 := match dashboard_app float_of_digits parse_yyyymmdd sum_seq data None with
            | Ok (Shown p) => p
            | _ => mkPanels 0 None [] None None None None
            end in
  dashboard_001 float_of_digits parse_yyyymmdd sum_seq data None = Ok (Shown p1) /\
  (1 <= total_events p1 <= 2)%nat /\
  dashboard_app float_of_digits parse_yyyymmdd sum_seq data None = Ok (Shown p2) /\
  total_events p2 = 2%nat.
Proof.
  intros data p1 p2.
  assert (H1 : dashboard_001 float_of_digits parse_yyyymmdd sum_seq data None = Ok (Shown p1))
    by (vm_compute; reflexivity).
  assert (H2 : dashboard_app float_of_digits parse_yyyymmdd sum_seq data None = Ok (Shown p2))
    by (vm_compute; reflexivity).
  split; [exact H1|split; [exact (proj1 (total_events_bounds float_of_digits parse_yyyymmdd sum_seq data None p1) H1)|]].
  split; [exact H2|exact (proj2 (total_events_bounds float_of_digits parse_yyyymmdd sum_seq data None p2) H2)].
Defined.
